(** * maptoposter: the theming / caching pipeline of [create_map_poster.py]

    A shallow embedding of the parts of [create_map_poster.py] that carry
    logic, and the properties the specification states about them.

    Conventions of the embedding.
    - A Python [str] is a Rocq [string] read as a sequence of code points
      below 256 (one [ascii] per code point); [lower] and [isalnum] follow
      Python's tables on that range.
    - Python [float]s that only carry literals and exact arithmetic
      (stroke widths, the alpha ramp, plot extents, coordinates) are exact
      rationals [Q].
    - The file system, the map services and the dialogs are explicit: the
      file system is state, everything else is an oracle handed in.
    - [print] and the other observable calls are recorded as a trace of
      events; a message is its template and the values put into it.
    - Font loading, geocoding, the matplotlib drawing calls and the Tk
      widgets are outside the embedding; the last block of [__main__]
      and the call of [start_gui], which run them, are parameters of
      [main]. *)

From Stdlib Require Import ZArith QArith Qabs String Ascii List Bool Lia Lqa.
From Stdlib Require Import DecimalString.
From stdpp Require Import base option list gmap sets strings sorting.

Local Open Scope string_scope.
Local Open Scope Z_scope.

(** ** Python's [str] operations used by the source *)
Module PyStr.

(** One character of [str.lower()], code points below 256. *)
Definition lower_char (c : ascii) : ascii :=
  let n := N_of_ascii c in
  if ((65 <=? n) && (n <=? 90))%N
     || ((192 <=? n) && (n <=? 222) && negb (n =? 215))%N
  then ascii_of_N (n + 32) else c.

(** [s.lower()] *)
Fixpoint lower (s : string) : string :=
  match s with
  | EmptyString => EmptyString
  | String c r => String (lower_char c) (lower r)
  end.

(** [s.replace(a, b)] for one-character [a] and [b]. *)
Fixpoint replace (a b : ascii) (s : string) : string :=
  match s with
  | EmptyString => EmptyString
  | String c r => String (if Ascii.eqb c a then b else c) (replace a b r)
  end.

(** [c.isalnum()], code points below 256. *)
Definition isalnum (c : ascii) : bool :=
  let n := N_of_ascii c in
  (((48 <=? n) && (n <=? 57)) || ((65 <=? n) && (n <=? 90))
   || ((97 <=? n) && (n <=? 122)) || (n =? 170) || ((178 <=? n) && (n <=? 179))
   || (n =? 181) || ((185 <=? n) && (n <=? 186)) || ((188 <=? n) && (n <=? 190))
   || ((192 <=? n) && (n <=? 214)) || ((216 <=? n) && (n <=? 246))
   || (248 <=? n))%N.

(** ["".join([c for c in s if keep(c)])] *)
Fixpoint filter_chars (keep : ascii -> bool) (s : string) : string :=
  match s with
  | EmptyString => EmptyString
  | String c r =>
      if keep c then String c (filter_chars keep r) else filter_chars keep r
  end.

(** [sep.join(parts)] *)
Fixpoint join (sep : string) (parts : list string) : string :=
  match parts with
  | [] => ""
  | [p] => p
  | p :: rest => p ++ sep ++ join sep rest
  end.

(** [s.startswith(p)] *)
Definition startswith (p s : string) : bool := String.prefix p s.

(** [s.endswith(p)] *)
Definition endswith (p s : string) : bool :=
  let n := String.length s in
  let k := String.length p in
  (k <=? n)%nat && String.eqb (String.substring (n - k) k s) p.

(** [s[:-k]] for [k > 0] *)
Definition drop_last (k : nat) (s : string) : string :=
  String.substring 0 (String.length s - k) s.

(** [str(n)] for an [int], as an f-string interpolates it. *)
Definition str_of_int (n : Z) : string := NilZero.string_of_int (Z.to_int n).

(** [x in xs] for a list of strings *)
Definition mem (x : string) (xs : list string) : bool :=
  existsb (String.eqb x) xs.

(** [sorted(xs)] on strings: insertion into code-point order. *)
Fixpoint insert_sorted (x : string) (xs : list string) : list string :=
  match xs with
  | [] => [x]
  | y :: r => if String.leb x y then x :: xs else y :: insert_sorted x r
  end.

Definition sorted (xs : list string) : list string :=
  foldr insert_sorted [] xs.

(** The tail of [s] after the prefix [p], when [s] starts with [p]. *)
Definition strip_prefix (p s : string) : option string :=
  if String.prefix p s
  then Some (String.substring (String.length p) (String.length s - String.length p) s)
  else None.

(** ['/' in s] and the like *)
Fixpoint contains_char (a : ascii) (s : string) : bool :=
  match s with
  | EmptyString => false
  | String c r => Ascii.eqb c a || contains_char a r
  end.

(** Round a non-negative rational to the nearest integer, ties to even,
    as float formatting does on the exact value. *)
Definition round_half_even (x : Q) : Z :=
  let n := Qnum x in
  let d := Z.pos (Qden x) in
  let q := n / d in
  let r := n mod d in
  if 2 * r <? d then q
  else if d <? 2 * r then q + 1
  else if Z.even q then q else q + 1.

(** [k] decimal digits of [n], padded with zeros on the left. *)
Fixpoint digits (k : nat) (n : Z) : string :=
  match k with
  | O => ""
  | S k' => digits k' (n / 10) ++ str_of_int (n mod 10)
  end.

(** [f"{x:.{prec}f}"]: sign, integer part, point, [prec] digits. *)
Definition format_f (prec : nat) (x : Q) : string :=
  let p := 10 ^ Z.of_nat prec in
  let scaled := round_half_even (Qabs x * inject_Z p) in
  (if Qlt_le_dec x 0 then "-" else "")
  ++ str_of_int (scaled / p)
  ++ match prec with O => "" | _ => "." ++ digits prec (scaled mod p) end.

End PyStr.

(** [os.path.join(a, b)] on POSIX *)
Definition path_join (a b : string) : string :=
  if PyStr.startswith "/" b then b
  else if String.eqb a "" || PyStr.endswith "/" a then a ++ b
  else a ++ "/" ++ b.


(** ** Values that cross the program's boundaries *)

(** A raised exception: its class name and [str(e)]. *)
Inductive exn := Exn (cls msg : string).

Definition exn_str (e : exn) : string := let 'Exn _ m := e in m.


(** The value of an OSM edge attribute: a string or a list of strings. *)
Inductive TagValue :=
| TagStr (s : string)
| TagList (l : list string).

(** One edge of the street graph, [(u, v, data)] of [G.edges(data=True)]. *)
Record Edge := { edge_u : Z; edge_v : Z; edge_data : gmap string TagValue }.

(** The street graph, as the sequence of its edges. *)
Definition Graph := list Edge.

(** A feature collection (GeoDataFrame), as its rows. *)
Definition Features := list string.

(** What [pickle] stores and [get_map_data] returns: the triple the
    program writes, or any other object a cache file may hold. *)
Inductive PyValue :=
| PyTriple (G : Graph) (water parks : option Features)
| PyOther (repr : string).

(** A JSON value inside a theme: a string, or something else known by
    its printed form and its truth value. *)
Inductive JVal :=
| JStr (s : string)
| JOther (repr : string) (truthy : bool).

(** [str(v)], as an f-string interpolates a theme value. *)
Definition jval_str (v : JVal) : string :=
  match v with JStr s => s | JOther r _ => r end.

(** [bool(v)], as [if v:] tests it. *)
Definition jval_truthy (v : JVal) : bool :=
  match v with JStr s => negb (String.eqb s "") | JOther _ t => t end.

(** A theme is the dict [json.load] returns. *)
Abbreviation Theme := (gmap string JVal).

(** A parsed JSON document: an object, or anything else. *)
Inductive JDoc :=
| JObject (d : Theme)
| JNonObject (repr : string).

#[global] Instance exn_eq_dec : EqDecision exn.
Proof. solve_decision. Defined.
#[global] Instance TagValue_eq_dec : EqDecision TagValue.
Proof. solve_decision. Defined.
#[global] Instance Edge_eq_dec : EqDecision Edge.
Proof. solve_decision. Defined.
#[global] Instance PyValue_eq_dec : EqDecision PyValue.
Proof. solve_decision. Defined.
#[global] Instance JVal_eq_dec : EqDecision JVal.
Proof. solve_decision. Defined.

(** ** External libraries, as interfaces *)

(** [pickle.dump] / [pickle.load] on file contents. A failed dump leaves
    the bytes written so far. *)
Class Pickle := {
  pickle_dump : PyValue -> (exn * string) + string;
  pickle_load : string -> exn + PyValue
}.

(** [json.dump(theme, f, indent=2)] / [json.load(f)]. *)
Class Json := {
  json_dump : Theme -> string;
  json_load : string -> exn + JDoc
}.

(** [matplotlib.colors.to_rgb] *)
Class Colors := { to_rgb : JVal -> exn + (Q * Q * Q) }.

(** The map service (OSMnx): each call returns or raises. *)
Record Net := {
  graph_from_point : Q * Q -> Z -> exn + Graph;
  features_from_point : Q * Q -> list (string * string) -> Z -> exn + Features
}.

(** ** The observable trace *)

(** The messages the program prints, one constructor per template (the
    check mark or warning sign a template starts with belongs to it); the
    usage text and the lines of the theme list are one message each. *)
Inductive Msg :=
(* load_theme *)
| MThemeNotFound (theme_file : string)  (* Theme file '..' not found. Using default feature_based theme. *)
| MLoadedTheme (name : string)          (* Loaded theme: .. *)
| MThemeDescription (d : string)
(* get_map_data *)
| MFoundCached (cache_path : string)    (* Found cached data: .. *)
| MLoadingFromCache                     (* Loading from cache... *)
| MLoadedFromCache                      (* Data loaded from cache *)
| MCacheLoadError (e : string)          (* Error loading cache: ... Downloading fresh data. *)
| MCacheMiss                            (* Cache miss. Downloading fresh data... *)
| MSavedToCache (cache_path : string)   (* Data saved to cache: .. *)
| MCouldNotSave (e : string)            (* Could not save to cache: .. *)
(* print_examples, list_themes *)
| MUsageExamples                        (* the text of print_examples() *)
| MNoThemes                             (* No themes found in 'themes/' directory. *)
| MThemesHeader                         (* Available Themes: and the rule below it *)
| MThemeEntry (theme_name display_name description : string)
                                        (* name, display name, description if any, blank line *)
(* the command line *)
| MErrRequired                          (* Error: --city and --country are required. *)
| MErrThemeNotFound (theme : string)    (* Error: Theme '..' not found. *)
| MAvailableThemes (joined : string).   (* Available themes: .. *)

(** A call to a remote service. *)
Inductive NetCall :=
| FetchStreets (point : Q * Q) (dist : Z)
| FetchFeatures (point : Q * Q) (tags : list (string * string)) (dist : Z).

(** A call to [tkinter]'s dialogs. *)
Inductive DialogCall :=
| AskString (title prompt initialvalue : string)
| AskYesNo (title message : string)
| ShowError (title message : string)
| ShowInfo (title message : string).

Inductive Event :=
| Print (m : Msg)
| Sleep (seconds : Q)
| PbarDescription (d : string)
| PbarUpdate (n : Z)
| Call (c : NetCall)
| Dialog (d : DialogCall).

Definition is_fetch (ev : Event) : bool :=
  match ev with
  | Call (FetchStreets _ _) | Call (FetchFeatures _ _ _) => true
  | _ => false
  end.

(** ** Effects: state, exceptions and the trace *)

(** A Python computation over a state [S]: it returns or raises, leaves
    a state, and appends to the trace. *)
Definition Py (S A : Type) : Type := S -> (exn + A) * S * list Event.

Definition py_ret {S A} (a : A) : Py S A := fun s => (inr a, s, []).

Definition py_bind {S A B} (m : Py S A) (f : A -> Py S B) : Py S B :=
  fun s =>
    match m s with
    | (inl e, s1, t1) => (inl e, s1, t1)
    | (inr a, s1, t1) =>
        let '(r, s2, t2) := f a s1 in (r, s2, (t1 ++ t2)%list)
    end.

#[global] Instance Py_ret {S} : MRet (Py S) := fun A => @py_ret S A.
#[global] Instance Py_bind {S} : MBind (Py S) := fun A B f m => py_bind m f.

(** [raise e] *)
Definition raise {S A} (e : exn) : Py S A := fun s => (inl e, s, []).

(** [try: body  except ...: handler(e)] where the clause catches [e]: a
    bare [except:] clause catches every error, an [except Exception]
    clause every error that is an [Exception] (see [is_Exception]); the
    errors that reach the handlers of this program are taken to be of that
    kind. *)
Definition try_except {S A} (body : Py S A) (handler : exn -> Py S A) : Py S A :=
  fun s =>
    match body s with
    | (inl e, s1, t1) =>
        let '(r, s2, t2) := handler e s1 in (r, s2, (t1 ++ t2)%list)
    | ok => ok
    end.

Definition emit_in {S} (ev : Event) : Py S unit := fun s => (inr tt, s, [ev]).
Definition get {S} : Py S S := fun s => (inr s, s, []).
Definition put {S} (s : S) : Py S unit := fun _ => (inr tt, s, []).

(** The result of a library call that returns or raises. *)
Definition lift_result {S A} (r : exn + A) : Py S A :=
  match r with inl e => raise e | inr a => mret a end.

(** Run a computation of a component state inside a larger state. *)
Definition zoom {S T A} (proj : T -> S) (upd : S -> T -> T) (m : Py S A) : Py T A :=
  fun t => let '(r, s, tr) := m (proj t) in (r, upd s t, tr).

(** ** The file system *)

Record Fs := {
  files : gmap string string;     (* regular files and their contents *)
  dirs : gset string;             (* directories *)
  rd_fault : gmap string exn;     (* paths that cannot be opened for reading *)
  wr_fault : gmap string exn;     (* paths that cannot be opened for writing:
                                     no permission, no parent directory, ... *)
  mk_fault : gmap string exn;     (* directories that cannot be created:
                                     no permission, a broken link of that name, ... *)
  broken_links : gset string      (* entries os.listdir reports and os.path.exists
                                     does not see: symbolic links whose target
                                     is missing *)
}.

Definition set_files (f : gmap string string) (fs : Fs) : Fs :=
  {| files := f; dirs := dirs fs; rd_fault := rd_fault fs;
     wr_fault := wr_fault fs; mk_fault := mk_fault fs;
     broken_links := broken_links fs |}.

Definition set_dirs (d : gset string) (fs : Fs) : Fs :=
  {| files := files fs; dirs := d; rd_fault := rd_fault fs;
     wr_fault := wr_fault fs; mk_fault := mk_fault fs;
     broken_links := broken_links fs |}.

(** [os.path.exists(p)]: it follows links, so a broken link does not
    exist (unless a write through it has since created its target). *)
Definition path_exists (fs : Fs) (p : string) : bool :=
  bool_decide (is_Some (files fs !! p)) || bool_decide (p ∈ dirs fs).

Definition os_path_exists (p : string) : Py Fs bool :=
  fs ← get; mret (path_exists fs p).

(** [os.makedirs(p)] *)
Definition os_makedirs (p : string) : Py Fs unit :=
  fs ← get;
  match mk_fault fs !! p with
  | Some e => raise e
  | None =>
      if path_exists fs p then raise (Exn "FileExistsError" p)
      else put (set_dirs ({[p]} ∪ dirs fs) fs)
  end.

(** The entries of directory [d]: the names directly below it, broken
    links included. *)
Definition child_of (d p : string) : option string :=
  match PyStr.strip_prefix (d ++ "/") p with
  | Some n => if String.eqb n "" || PyStr.contains_char "/" n then None else Some n
  | None => None
  end.

Definition entries (fs : Fs) (d : string) : list string :=
  omap (child_of d) (elements (dom (files fs) ∪ dirs fs ∪ broken_links fs)).

(** [os.listdir(d)]; the order of the result is the file system's. *)
Definition os_listdir (d : string) : Py Fs (list string) :=
  fs ← get;
  if bool_decide (d ∈ dirs fs) then mret (entries fs d)
  else raise (Exn "OSError" d).

(** [open(p, 'r')] / [open(p, 'rb')]: the handle, as the content. *)
Definition open_read (p : string) : Py Fs string :=
  fs ← get;
  match rd_fault fs !! p with
  | Some e => raise e
  | None =>
      match files fs !! p with
      | Some c => mret c
      | None => raise (Exn "OSError" p)
      end
  end.

(** [open(p, 'w')] / [open(p, 'wb')]: creates or truncates the file. *)
Definition open_write (p : string) : Py Fs unit :=
  fs ← get;
  match wr_fault fs !! p with
  | Some e => raise e
  | None =>
      if bool_decide (p ∈ dirs fs) then raise (Exn "IsADirectoryError" p)
      else put (set_files (<[p := ""]> (files fs)) fs)
  end.

(** What the open handle on [p] holds when it is closed. *)
Definition write_file (p c : string) : Py Fs unit :=
  fs ← get; put (set_files (<[p := c]> (files fs)) fs).

(** Events of code that runs on the file system. *)
Definition emit (ev : Event) : Py Fs unit := emit_in ev.
Definition print (m : Msg) : Py Fs unit := emit (Print m).

Definition THEMES_DIR := "themes".
Definition FONTS_DIR := "fonts".
Definition POSTERS_DIR := "posters".
Definition CACHE_DIR := "cache".

(** ** Theme store *)

(** [get_available_themes()] *)
Definition get_available_themes : Py Fs (list string) :=
  ex ← os_path_exists THEMES_DIR;
  if negb ex then
    os_makedirs THEMES_DIR;;
    mret []
  else
    listing ← os_listdir THEMES_DIR;
    mret (map (PyStr.drop_last 5)
              (List.filter (PyStr.endswith ".json") (PyStr.sorted listing))).

(** The embedded fallback of [load_theme]. *)
Definition default_theme : Theme :=
  list_to_map
    [ ("name", JStr "Feature-Based Shading");
      ("bg", JStr "#FFFFFF");
      ("text", JStr "#000000");
      ("gradient_color", JStr "#FFFFFF");
      ("water", JStr "#C0C0C0");
      ("parks", JStr "#F0F0F0");
      ("road_motorway", JStr "#0A0A0A");
      ("road_primary", JStr "#1A1A1A");
      ("road_secondary", JStr "#2A2A2A");
      ("road_tertiary", JStr "#3A3A3A");
      ("road_residential", JStr "#4A4A4A");
      ("road_default", JStr "#3A3A3A") ].

(** The color roles the renderer reads from a theme: [THEME['bg']],
    ['text'], ['gradient_color'], ['water'] and ['parks'] in
    [create_poster], the road keys in the color loop. *)
Definition required_roles : list string :=
  [ "bg"; "text"; "gradient_color"; "water"; "parks"; "road_motorway";
    "road_primary"; "road_secondary"; "road_tertiary"; "road_residential";
    "road_default" ].

(** [theme.get(key, fallback)] *)
Definition dict_get (d : Theme) (key : string) (fallback : JVal) : JVal :=
  default fallback (d !! key).

(** [load_theme(theme_name)] *)
Definition load_theme `{Json} (theme_name : string) : Py Fs Theme :=
  let theme_file := path_join THEMES_DIR (theme_name ++ ".json") in
  ex ← os_path_exists theme_file;
  if negb ex then
    print (MThemeNotFound theme_file);;
    mret default_theme
  else
    f ← open_read theme_file;
    doc ← lift_result (json_load f);
    match doc with
    | JNonObject _ => raise (Exn "AttributeError" "object has no attribute 'get'")
    | JObject theme =>
        print (MLoadedTheme (jval_str (dict_get theme "name" (JStr theme_name))));;
        match theme !! "description" with
        | Some d => print (MThemeDescription (jval_str d))
        | None => mret tt
        end;;
        mret theme
    end.

(** ** Road classifier *)

(** The first lines of both loops: the highway type of an edge, a string
    or the first element of a list, ['unclassified'] when absent. *)
Definition highway_of (data : gmap string TagValue) : string :=
  match default (TagStr "unclassified") (data !! "highway") with
  | TagList l => match l with h :: _ => h | [] => "unclassified" end
  | TagStr s => s
  end.

(** The theme key the color loop looks up for a highway type. *)
Definition color_key (highway : string) : string :=
  if PyStr.mem highway ["motorway"; "motorway_link"] then "road_motorway"
  else if PyStr.mem highway ["trunk"; "trunk_link"; "primary"; "primary_link"]
  then "road_primary"
  else if PyStr.mem highway ["secondary"; "secondary_link"] then "road_secondary"
  else if PyStr.mem highway ["tertiary"; "tertiary_link"] then "road_tertiary"
  else if PyStr.mem highway ["residential"; "living_street"; "unclassified"]
  then "road_residential"
  else "road_default".

(** [THEME[key]] *)
Definition theme_item (THEME : Theme) (key : string) : exn + JVal :=
  match THEME !! key with
  | Some v => inr v
  | None => inl (Exn "KeyError" key)
  end.

(** [get_edge_colors_by_type(G)]; the global [THEME] is a parameter. *)
Fixpoint get_edge_colors_by_type (THEME : Theme) (G : Graph) : exn + list JVal :=
  match G with
  | [] => inr []
  | e :: rest =>
      match theme_item THEME (color_key (highway_of (edge_data e))) with
      | inl err => inl err
      | inr color =>
          match get_edge_colors_by_type THEME rest with
          | inl err => inl err
          | inr edge_colors => inr (color :: edge_colors)
          end
      end
  end.

(** The width the width loop assigns to a highway type. *)
Definition edge_width (highway : string) : Q :=
  if PyStr.mem highway ["motorway"; "motorway_link"] then 1.2%Q
  else if PyStr.mem highway ["trunk"; "trunk_link"; "primary"; "primary_link"]
  then 1.0%Q
  else if PyStr.mem highway ["secondary"; "secondary_link"] then 0.8%Q
  else if PyStr.mem highway ["tertiary"; "tertiary_link"] then 0.6%Q
  else 0.4%Q.

(** [get_edge_widths_by_type(G)] *)
Definition get_edge_widths_by_type (G : Graph) : list Q :=
  map (fun e => edge_width (highway_of (edge_data e))) G.

(** The theme keys of the road tiers, most important first. *)
Definition road_roles : list string :=
  [ "road_motorway"; "road_primary"; "road_secondary"; "road_tertiary";
    "road_residential"; "road_default" ].

(** The highway types the color loop names. *)
Definition named_highways : list string :=
  [ "motorway"; "motorway_link"; "trunk"; "trunk_link"; "primary";
    "primary_link"; "secondary"; "secondary_link"; "tertiary";
    "tertiary_link"; "residential"; "living_street"; "unclassified" ].

(** ** Gradient compositor *)

(** [numpy.linspace(start, stop, num)]: [num] evenly spaced samples, the
    last one set to [stop]. These are the exact values; numpy holds each
    of them rounded to a float. *)
Definition linspace (start stop : Q) (num : nat) : list Q :=
  match num with
  | O => []
  | 1%nat => [start]
  | S d =>
      let step := ((stop - start) / inject_Z (Z.of_nat d))%Q in
      (map (fun i => inject_Z (Z.of_nat i) * step + start)%Q (seq 0 d) ++ [stop])%list
  end.

(** The axes' current limits, [ax.get_xlim()] and [ax.get_ylim()]. *)
Record Axes := { xlim : Q * Q; ylim : Q * Q }.

(** The [ax.imshow] call a fade ends in: the image, its colormap rows
    (r, g, b, alpha), the extent [x0, x1, y_bottom, y_top] and the zorder. *)
Record Overlay := {
  ov_image : list (Q * Q);
  ov_colors : list (Q * Q * Q * Q);
  ov_extent : Q * Q * Q * Q;
  ov_zorder : Z
}.

Definition ov_alpha (o : Overlay) : list Q := map snd (ov_colors o).
Definition ov_y_bottom (o : Overlay) : Q := snd (fst (ov_extent o)).
Definition ov_y_top (o : Overlay) : Q := snd (ov_extent o).

(** [create_gradient_fade(ax, color, location, zorder)] *)
Definition create_gradient_fade `{Colors}
    (ax : Axes) (color : JVal) (location : string) (zorder : Z) : exn + Overlay :=
  let vals := linspace 0 1 256 in
  let gradient := map (fun v => (v, v)) vals in
  match to_rgb color with
  | inl err => inl err
  | inr (r, g, b) =>
      let '(alpha, extent_y_start, extent_y_end) :=
        if String.eqb location "bottom"
        then (linspace 1 0 256, 0%Q, 0.25%Q)
        else (linspace 0 1 256, 0.75%Q, 1.0%Q) in
      let my_colors := map (fun a => (r, g, b, a)) alpha in
      let y_range := (snd (ylim ax) - fst (ylim ax))%Q in
      let y_bottom := (fst (ylim ax) + y_range * extent_y_start)%Q in
      let y_top := (fst (ylim ax) + y_range * extent_y_end)%Q in
      inr {| ov_image := gradient;
             ov_colors := my_colors;
             ov_extent := (fst (xlim ax), snd (xlim ax), y_bottom, y_top);
             ov_zorder := zorder |}
  end.

(** ** Geo cache *)

(** The cache file of a request: the slugs of city and country and the
    radius, under [CACHE_DIR]. *)
Definition cache_path_of (city country : string) (dist : Z) : string :=
  let city_slug := PyStr.replace " " "_" (PyStr.lower city) in
  let country_slug := PyStr.replace " " "_" (PyStr.lower country) in
  let cache_filename :=
    city_slug ++ "_" ++ country_slug ++ "_" ++ PyStr.str_of_int dist ++ ".pkl" in
  path_join CACHE_DIR cache_filename.

(** The "Check cache" block: [Some data] when the block returns [data],
    [None] when control falls through to the download. *)
Definition check_cache `{Pickle} (cache_path : string) : Py Fs (option PyValue) :=
  found ← os_path_exists cache_path;
  if (found : bool) then
    print (MFoundCached cache_path);;
    try_except
      (f ← open_read cache_path;
       print MLoadingFromCache;;
       data ← lift_result (pickle_load f);
       print MLoadedFromCache;;
       mret (Some data))
      (fun e =>
         print (MCacheLoadError (exn_str e));;
         mret None)
  else mret None.

Definition water_tags : list (string * string) :=
  [("natural", "water"); ("waterway", "riverbank")].
Definition park_tags : list (string * string) :=
  [("leisure", "park"); ("landuse", "grass")].

(** [ox.graph_from_point(point, dist=dist, ...)] *)
Definition fetch_streets (net : Net) (point : Q * Q) (dist : Z) : Py Fs Graph :=
  emit (Call (FetchStreets point dist));;
  lift_result (graph_from_point net point dist).

(** [ox.features_from_point(point, tags=tags, dist=dist)] *)
Definition fetch_features (net : Net) (point : Q * Q)
    (tags : list (string * string)) (dist : Z) : Py Fs Features :=
  emit (Call (FetchFeatures point tags dist));;
  lift_result (features_from_point net point tags dist).

(** The download block, under the progress bar. *)
Definition download (net : Net) (point : Q * Q) (dist : Z)
    : Py Fs (Graph * option Features * option Features) :=
  print MCacheMiss;;
  emit (PbarDescription "Downloading street network");;
  G ← fetch_streets net point dist;
  emit (PbarUpdate 1);;
  emit (Sleep 0.5%Q);;
  emit (PbarDescription "Downloading water features");;
  water ← try_except (r ← fetch_features net point water_tags dist; mret (Some r))
                     (fun _ => mret None);
  emit (PbarUpdate 1);;
  emit (Sleep 0.3%Q);;
  emit (PbarDescription "Downloading parks/green spaces");;
  parks ← try_except (r ← fetch_features net point park_tags dist; mret (Some r))
                     (fun _ => mret None);
  emit (PbarUpdate 1);;
  mret (G, water, parks).

(** The "Save to cache" block. *)
Definition save_to_cache `{Pickle} (cache_path : string) (data : PyValue) : Py Fs unit :=
  try_except
    (open_write cache_path;;
     match pickle_dump data with
     | inl (e, written) => write_file cache_path written;; raise e
     | inr bytes => write_file cache_path bytes
     end;;
     print (MSavedToCache cache_path))
    (fun e => print (MCouldNotSave (exn_str e))).

(** The path taken when the cache gives nothing: download, store, return. *)
Definition download_and_store `{Pickle} (net : Net) (cache_path : string)
    (point : Q * Q) (dist : Z) : Py Fs PyValue :=
  '(G, water, parks) ← download net point dist;
  save_to_cache cache_path (PyTriple G water parks);;
  mret (PyTriple G water parks).

(** [get_map_data(city, country, point, dist)] *)
Definition get_map_data `{Pickle} (net : Net)
    (city country : string) (point : Q * Q) (dist : Z) : Py Fs PyValue :=
  ex ← os_path_exists CACHE_DIR;
  (if negb ex then os_makedirs CACHE_DIR else mret tt);;
  let cache_path := cache_path_of city country dist in
  cached ← check_cache cache_path;
  match cached with
  | Some data => mret data
  | None => download_and_store net cache_path point dist
  end.

(** The cache directory is there, or [os.makedirs] can create it. *)
Definition cache_dir_ready (fs : Fs) : Prop :=
  path_exists fs CACHE_DIR = true \/ mk_fault fs !! CACHE_DIR = None.

(** The file system after the first two lines of [get_map_data]. *)
Definition with_cache_dir (fs : Fs) : Fs :=
  if path_exists fs CACHE_DIR then fs
  else set_dirs ({[CACHE_DIR]} ∪ dirs fs) fs.

(** A guarded feature fetch: the layer, or [None] when the fetch raised. *)
Definition layer (r : exn + Features) : option Features :=
  match r with inr f => Some f | inl _ => None end.

(** The events of a download that gets past the street network. *)
Definition download_events (point : Q * Q) (dist : Z) : list Event :=
  [ Print MCacheMiss;
    PbarDescription "Downloading street network";
    Call (FetchStreets point dist);
    PbarUpdate 1; Sleep 0.5%Q;
    PbarDescription "Downloading water features";
    Call (FetchFeatures point water_tags dist);
    PbarUpdate 1; Sleep 0.3%Q;
    PbarDescription "Downloading parks/green spaces";
    Call (FetchFeatures point park_tags dist);
    PbarUpdate 1 ].

(** The number of remote fetches in a trace. *)
Definition fetches (t : list Event) : nat := length (List.filter is_fetch t).

(** ** Poster composer: the coordinate line *)

(** The degree sign, code point 176. *)
Definition deg : string := String (ascii_of_N 176) "".

(** The [coords] text [create_poster] draws for [point]. *)
Definition coords_text (point : Q * Q) : string :=
  let '(lat, lon) := point in
  let coords :=
    if Qle_bool 0 lat
    then PyStr.format_f 4 lat ++ deg ++ " N / " ++ PyStr.format_f 4 lon ++ deg ++ " E"
    else PyStr.format_f 4 (Qabs lat) ++ deg ++ " S / " ++ PyStr.format_f 4 lon ++ deg ++ " E" in
  if negb (Qle_bool 0 lon) then PyStr.replace "E" "W" coords else coords.

(** ** Interactive editor: saving a theme *)

(** The fields of [MapPosterApp] that [save_theme] reads and writes. The
    global [THEME] is the same dict object as [current_theme_data]. *)
Record App := {
  theme_var : string;
  current_theme_data : Theme;
  theme_combo_values : list string
}.

Record Gui := { gui_fs : Fs; gui_app : App }.

Definition with_fs {A} (m : Py Fs A) : Py Gui A :=
  zoom gui_fs (fun fs g => {| gui_fs := fs; gui_app := gui_app g |}) m.

Definition dialog (d : DialogCall) : Py Gui unit := emit_in (Dialog d).

Definition get_app : Py Gui App := g ← get; mret (gui_app g).
Definition put_app (a : App) : Py Gui unit :=
  g ← get; put {| gui_fs := gui_fs g; gui_app := a |}.

(** The identifier derived from the entered name. *)
Definition slug_of (new_name : string) : string :=
  let slug := PyStr.replace " " "_" (PyStr.lower new_name) in
  PyStr.filter_chars (fun c => PyStr.isalnum c || Ascii.eqb c "_") slug.

(** [MapPosterApp.save_theme]; [entered] is what the name dialog returns
    ([None] when cancelled), [overwrite] the answer to the overwrite
    question if it is asked. *)
Definition save_theme `{Json} (entered : option string) (overwrite : bool) : Py Gui unit :=
  app ← get_app;
  let current_name := theme_var app in
  dialog ((AskString "Save Theme"
    "Enter theme name (will be converted to snake_case filename):" current_name));;
  match entered with
  | None => mret tt
  | Some new_name =>
      if String.eqb new_name "" then mret tt
      else
        let slug := slug_of new_name in
        if String.eqb slug "" then
          dialog ((ShowError "Error" "Invalid theme name"))
        else
          let filename := slug ++ ".json" in
          let filepath := path_join THEMES_DIR filename in
          ex ← with_fs (os_path_exists filepath);
          go ← (if (ex : bool) then
                  dialog ((AskYesNo "Confirm Overwrite"
                    ("Theme '" ++ slug ++ "' already exists. Overwrite?")));;
                  mret overwrite
                else mret true);
          if negb go then mret tt
          else
            put_app {| theme_var := theme_var app;
                       current_theme_data :=
                         <["name" := JStr new_name]> (current_theme_data app);
                       theme_combo_values := theme_combo_values app |};;
            try_except
              (with_fs (open_write filepath);;
               app1 ← get_app;
               with_fs (write_file filepath (json_dump (current_theme_data app1)));;
               dialog ((ShowInfo "Success" ("Theme saved as '" ++ slug ++ "'")));;
               themes ← with_fs get_available_themes;
               app2 ← get_app;
               put_app {| theme_var := theme_var app2;
                          current_theme_data := current_theme_data app2;
                          theme_combo_values := themes |};;
               app3 ← get_app;
               put_app {| theme_var := slug;
                          current_theme_data := current_theme_data app3;
                          theme_combo_values := theme_combo_values app3 |})
              (fun e =>
                 dialog ((ShowError "Error" ("Could not save theme: " ++ exn_str e))))
  end.

(** ** Command line *)

(** [list_themes()] *)
Definition theme_entry `{Json} (theme_name : string) : Py Fs unit :=
  let theme_path := path_join THEMES_DIR (theme_name ++ ".json") in
  '(display_name, description) ←
    try_except
      (f ← open_read theme_path;
       doc ← lift_result (json_load f);
       match doc with
       | JNonObject _ => raise (Exn "AttributeError" "object has no attribute 'get'")
       | JObject theme_data =>
           mret (dict_get theme_data "name" (JStr theme_name),
                 dict_get theme_data "description" (JStr ""))
       end)
      (fun _ => mret (JStr theme_name, JStr ""));
  print (MThemeEntry theme_name (jval_str display_name)
           (if jval_truthy description then jval_str description else "")).

Definition list_themes `{Json} : Py Fs unit :=
  available_themes ← get_available_themes;
  match available_themes with
  | [] => print MNoThemes
  | _ =>
      print MThemesHeader;;
      foldr (fun theme_name rest => theme_entry theme_name;; rest)
            (mret tt) available_themes
  end.

(** The namespace [parser.parse_args()] returns. *)
Record Args := {
  city : option string;
  country : option string;
  theme : string;
  distance : Z;
  list_themes_flag : bool;
  gui : bool
}.


(** [not x] for an optional string argument *)
Definition absent (x : option string) : bool :=
  match x with None => true | Some v => String.eqb v "" end.

(** The [__main__] block after [parse_args]: [argc] is [len(sys.argv)];
    the result is the status given to [sys.exit]. [start_gui] stands for
    the call [start_gui()] (the Tk root, the editor and its event loop: a
    session that may print, write themes and posters, and raise), and
    [generate] for the last block (banner, [load_theme], geocoding,
    [create_poster]). *)
Definition main `{Json} (start_gui : Py Fs unit) (generate : Args -> Py Fs Z)
    (argc : nat) (args : Args) : Py Fs Z :=
  if gui args then
    start_gui;;
    mret 0
  else if Nat.eqb argc 1 then
    print MUsageExamples;;
    mret 0
  else if list_themes_flag args then
    list_themes;;
    mret 0
  else if absent (city args) || absent (country args) then
    print MErrRequired;;
    print MUsageExamples;;
    mret 1
  else
    available_themes ← get_available_themes;
    if negb (PyStr.mem (theme args) available_themes) then
      print (MErrThemeNotFound (theme args));;
      print (MAvailableThemes (PyStr.join ", " available_themes));;
      mret 1
    else generate args.


Definition outcome {S A} (r : (exn + A) * S * list Event) : exn + A := r.1.1.
Definition final {S A} (r : (exn + A) * S * list Event) : S := r.1.2.
Definition trace {S A} (r : (exn + A) * S * list Event) : list Event := r.2.

(** ** Sample data the examples run on *)
Module Sample.

Definition motorway_edge : Edge :=
  {| edge_u := 1; edge_v := 2;
     edge_data := {[ "highway" := TagStr "motorway" ]} |}.

Definition lane_edge : Edge :=
  {| edge_u := 2; edge_v := 3;
     edge_data := {[ "highway" := TagList ["residential"; "service"] ]} |}.

Definition track_edge : Edge :=
  {| edge_u := 3; edge_v := 4; edge_data := {[ "highway" := TagStr "track" ]} |}.

Definition bare_edge : Edge := {| edge_u := 4; edge_v := 5; edge_data := ∅ |}.

Definition graph : Graph := [motorway_edge; lane_edge; track_edge; bare_edge].

Definition parks : Features := ["POLYGON park"].

Definition triple : PyValue := PyTriple graph None (Some parks).

(** A pickle that knows one object. *)
#[local] Instance pickle : Pickle := {|
  pickle_dump v :=
    if decide (v = triple) then inr "pickled-triple"
    else inl (Exn "PicklingError" "cannot pickle", "");
  pickle_load b :=
    if String.eqb b "pickled-triple" then inr triple
    else inl (Exn "UnpicklingError" "invalid load key")
|}.

(** A JSON codec for themes that hold a display name only. *)
#[local] Instance json : Json := {|
  json_dump t := jval_str (dict_get t "name" (JStr ""));
  json_load s :=
    if String.eqb s "" then inl (Exn "JSONDecodeError" "Expecting value")
    else inr (JObject {[ "name" := JStr s ]})
|}.

(** A color parser that knows white. *)
#[local] Instance colors : Colors := {|
  to_rgb c :=
    if decide (c = JStr "#FFFFFF") then inr (1%Q, 1%Q, 1%Q)
    else inl (Exn "ValueError" "Invalid RGBA argument")
|}.

(** A map service whose water layer is down. *)
Definition net : Net := {|
  graph_from_point _ _ := inr graph;
  features_from_point _ tags _ :=
    if decide (tags = park_tags) then inr parks
    else inl (Exn "InsufficientResponseError" "No matching features")
|}.

(** A map service that is down altogether. *)
Definition offline : Net := {|
  graph_from_point _ _ := inl (Exn "ConnectionError" "network unreachable");
  features_from_point _ _ _ := inl (Exn "ConnectionError" "network unreachable")
|}.

Definition empty_fs : Fs :=
  {| files := ∅; dirs := ∅; rd_fault := ∅; wr_fault := ∅; mk_fault := ∅; broken_links := ∅ |}.

(** A working directory with two themes and a damaged cache entry. *)
Definition fs : Fs :=
  {| files := {[ "themes/noir.json" := "Noir";
                 "themes/ocean.json" := "Ocean";
                 "themes/README.txt" := "about";
                 "cache/new_york_usa_12000.pkl" := "garbage" ]};
     dirs := {[ "themes"; "cache" ]};
     rd_fault := ∅; wr_fault := ∅; mk_fault := ∅; broken_links := ∅ |}.

(** The same directory with a cache that cannot be written. *)
Definition readonly_fs : Fs :=
  {| files := files fs; dirs := dirs fs; rd_fault := ∅;
     wr_fault := {[ "cache/paris_france_10000.pkl" := Exn "PermissionError" "Permission denied" ]};
     mk_fault := ∅; broken_links := ∅ |}.

Definition new_york : Q * Q := (40.7128%Q, (-74.006)%Q).
Definition paris : Q * Q := (48.8566%Q, 2.3522%Q).

Definition app : App :=
  {| theme_var := "noir"; current_theme_data := {[ "name" := JStr "Noir" ]};
     theme_combo_values := ["noir"; "ocean"] |}.

Definition gui_state : Gui := {| gui_fs := fs; gui_app := app |}.

Definition axes : Axes := {| xlim := (0%Q, 12%Q); ylim := (100%Q, 116%Q) |}.

(** The last block of [__main__], taken to succeed. *)
Definition generate (_ : Args) : Py Fs Z := mret 0.

(** An editor session in which the window is closed at once: the editor
    has loaded the default theme and listed the themes for its combo box. *)
Definition session : Py Fs unit :=
  load_theme "feature_based";;
  get_available_themes;;
  mret tt.






End Sample.

(** * Further functions of the program *)

(** ** Output file names *)

(** [generate_output_filename(city, theme_name)]; [timestamp] is what
    [datetime.now().strftime("%Y%m%d_%H%M%S")] gives during the call. *)
Definition generate_output_filename (timestamp : string)
    (city theme_name : string) : Py Fs string :=
  ex ← os_path_exists POSTERS_DIR;
  (if negb ex then os_makedirs POSTERS_DIR else mret tt);;
  let city_slug := PyStr.replace " " "_" (PyStr.lower city) in
  let filename := city_slug ++ "_" ++ theme_name ++ "_" ++ timestamp ++ ".png" in
  mret (path_join POSTERS_DIR filename).

(** ** The color rows of the editor *)

(** The prefixes [refresh_color_buttons] accepts. *)
Definition color_prefixes : list string :=
  ["bg"; "text"; "water"; "parks"; "road"; "gradient"].

(** The condition of the comprehension in [refresh_color_buttons]: the
    key starts with one of the prefixes and its value is a [str] that
    starts with ['#']. *)
Definition is_color_entry (theme : Theme) (k : string) : bool :=
  existsb (fun p => PyStr.startswith p k) color_prefixes
  && match theme !! k with
     | Some (JStr v) => PyStr.startswith "#" v
     | _ => false
     end.

(** [sorted(color_keys)] in [refresh_color_buttons]: the keys that get a
    label and a color button, in the order of the rows. *)
Definition color_keys (theme : Theme) : list string :=
  PyStr.sorted (List.filter (is_color_entry theme) (elements (dom theme))).

(** [MapPosterApp.pick_color(key)]: the fields after the color dialog has
    answered; [chosen] is [color[1]], the hex string, [None] when the
    dialog is cancelled. *)
Definition pick_color (key : string) (chosen : option string) (app : App) : App :=
  match chosen with
  | None => app
  | Some c =>
      if String.eqb c "" then app
      else {| theme_var := theme_var app;
              current_theme_data := <[key := JStr c]> (current_theme_data app);
              theme_combo_values := theme_combo_values app |}
  end.

(** [MapPosterApp.on_theme_change(event)] *)
Definition on_theme_change `{Json} : Py Gui unit :=
  app ← get_app;
  loaded ← with_fs (load_theme (theme_var app));
  put_app {| theme_var := theme_var app;
             current_theme_data := loaded;
             theme_combo_values := theme_combo_values app |}.

(** ** The theme directory as a listing *)

(** The file names the loop of [get_available_themes] keeps: the sorted
    entries of [THEMES_DIR] that end in [.json]. *)
Definition theme_files (fs : Fs) : list string :=
  List.filter (PyStr.endswith ".json") (PyStr.sorted (entries fs THEMES_DIR)).

(** The names it appends for them. *)
Definition listed_themes (fs : Fs) : list string :=
  map (PyStr.drop_last 5) (theme_files fs).

(** ** More sample data *)
Module Demo.

(** A theme with a custom road key, a text field and a number. *)
Definition custom_theme : Theme :=
  {[ "name" := JStr "Custom"; "bg" := JStr "#101010";
     "road_cycleway" := JStr "#00FF00"; "text_size" := JOther "14" true;
     "water" := JStr "blue" ]}.

(** A theme without the default road role. *)
Definition partial_theme : Theme := delete "road_default" default_theme.

(** A working directory where [themes/] also holds a sub-directory whose
    name ends in [.json] and a file in a sub-directory. *)
Definition fs : Fs :=
  {| files := {[ "themes/noir.json" := "Noir";
                 "themes/a-b.json" := "Dash";
                 "themes/a.json" := "";
                 "themes/notes.txt" := "about";
                 "themes/old/ocean.json" := "Ocean" ]};
     dirs := {[ "themes"; "themes/old"; "themes/dir.json" ]};
     rd_fault := ∅; wr_fault := ∅; mk_fault := ∅; broken_links := ∅ |}.

(** A themes directory that holds one theme and a link to a theme file
    that is gone. *)
Definition linked_fs : Fs :=
  {| files := {[ "themes/noir.json" := "Noir" ]};
     dirs := {[ "themes" ]};
     rd_fault := ∅; wr_fault := ∅; mk_fault := ∅;
     broken_links := {[ "themes/ghost.json" ]} |}.

(** [create_map_poster.py -c Paris -C France -t ghost] *)
Definition paris_ghost : Args :=
  {| city := Some "Paris"; country := Some "France"; theme := "ghost";
     distance := 29000; list_themes_flag := false; gui := false |}.

(** A directory in which nothing can be created. *)
Definition locked_fs : Fs :=
  {| files := ∅; dirs := ∅; rd_fault := ∅; wr_fault := ∅;
     mk_fault := {[ "cache" := Exn "PermissionError" "Permission denied";
                    "posters" := Exn "PermissionError" "Permission denied";
                    "themes" := Exn "PermissionError" "Permission denied" ]};
     broken_links := ∅ |}.

(** The sample directory with a theme file that cannot be written. *)
Definition protected_gui : Gui :=
  {| gui_fs :=
       {| files := files Sample.fs; dirs := dirs Sample.fs; rd_fault := ∅;
          wr_fault := {[ "themes/noir.json" := Exn "PermissionError" "Permission denied" ]};
          mk_fault := ∅; broken_links := ∅ |};
     gui_app := Sample.app |}.

(** A working directory whose cache holds one request. *)
Definition cached_fs : Fs :=
  {| files := {[ "cache/san_jose_costa_rica_5000.pkl" := "pickled-triple" ]};
     dirs := {[ "cache" ]}; rd_fault := ∅; wr_fault := ∅; mk_fault := ∅; broken_links := ∅ |}.

(** The editor with the custom theme loaded. *)
Definition editor : App :=
  {| theme_var := "custom"; current_theme_data := custom_theme;
     theme_combo_values := ["custom"] |}.

(** [create_map_poster.py -c Paris -C France] *)
Definition paris_default : Args :=
  {| city := Some "Paris"; country := Some "France"; theme := "feature_based";
     distance := 29000; list_themes_flag := false; gui := false |}.

(** [create_map_poster.py -c Paris -C France -t noir] *)
Definition paris_noir : Args :=
  {| city := Some "Paris"; country := Some "France"; theme := "noir";
     distance := 29000; list_themes_flag := false; gui := false |}.

End Demo.

(** * Properties *)

(** The examples below run on the sample libraries; a statement that
    binds its own library uses that one. *)
#[local] Existing Instances Sample.pickle Sample.json Sample.colors.

(** Unfold the effect layer down to functions on states. *)
Ltac py_unfold :=
  cbv [mbind mret Py_bind Py_ret py_bind py_ret raise try_except emit print
       emit_in dialog get put lift_result zoom with_fs get_app put_app
       os_path_exists os_makedirs os_listdir open_read open_write write_file].

(** Reduce what a rewritten test or result has decided. *)
Ltac py_red := cbv beta iota zeta delta [negb].

Lemma mem_elem_of (x : string) (l : list string) :
  PyStr.mem x l = true <-> x ∈ l.
Proof.
  unfold PyStr.mem. rewrite existsb_exists, list_elem_of_In. split.
  - intros (y & Hy & Heq). apply String.eqb_eq in Heq. now subst.
  - intros Hin. exists x. split; [assumption | apply String.eqb_refl].
Qed.

Lemma mem_not_elem_of (x : string) (l : list string) :
  x ∉ l -> PyStr.mem x l = false.
Proof.
  intros Hn. destruct (PyStr.mem x l) eqn:E; [| reflexivity].
  apply mem_elem_of in E. contradiction.
Qed.

Lemma file_exists (fs : Fs) (p c : string) :
  files fs !! p = Some c -> path_exists fs p = true.
Proof. intros Hf. unfold path_exists. now rewrite Hf. Qed.

(** ** Road classifier *)

Lemma unnamed_highway (h : string) :
  h ∉ named_highways ->
  PyStr.mem h ["motorway"; "motorway_link"] = false /\
  PyStr.mem h ["trunk"; "trunk_link"; "primary"; "primary_link"] = false /\
  PyStr.mem h ["secondary"; "secondary_link"] = false /\
  PyStr.mem h ["tertiary"; "tertiary_link"] = false /\
  PyStr.mem h ["residential"; "living_street"; "unclassified"] = false.
Proof.
  intros Hn. unfold named_highways in Hn.
  rewrite !elem_of_cons, elem_of_nil in Hn.
  repeat apply conj; apply mem_not_elem_of;
    rewrite !elem_of_cons, elem_of_nil; tauto.
Qed.

Lemma edge_colors_total (THEME : Theme) (G : Graph) :
  (forall role, role ∈ road_roles -> is_Some (THEME !! role)) ->
  exists edge_colors,
    get_edge_colors_by_type THEME G = inr edge_colors /\
    Forall2 (fun e c => THEME !! color_key (highway_of (edge_data e)) = Some c)
            G edge_colors.
Proof.
  intros Hroles. induction G as [| e rest IH].
  - exists []. split; [reflexivity | constructor].
  - destruct IH as (cs & Hcs & Hall).
    assert (Hkey : color_key (highway_of (edge_data e)) ∈ road_roles).
    { unfold color_key, road_roles.
      repeat match goal with |- context [if ?b then _ else _] => destruct b end;
        rewrite !elem_of_cons; tauto. }
    destruct (Hroles _ Hkey) as [c Hc].
    exists (c :: cs). split.
    + cbn [get_edge_colors_by_type]. unfold theme_item. rewrite Hc, Hcs. reflexivity.
    + constructor; assumption.
Qed.

Lemma color_key_role (h : string) : color_key h ∈ road_roles.
Proof.
  unfold color_key, road_roles.
  repeat match goal with |- context [if ?b then _ else _] => destruct b end;
    rewrite !elem_of_cons; tauto.
Qed.

(** The color loop returns exactly when the theme defines the role of
    every edge. *)
Lemma edge_colors_returns_iff (THEME : Theme) (G : Graph) :
  (exists edge_colors, get_edge_colors_by_type THEME G = inr edge_colors) <->
  Forall (fun e => is_Some (THEME !! color_key (highway_of (edge_data e)))) G.
Proof.
  induction G as [| e rest IH].
  - split; [constructor | now eexists].
  - cbn [get_edge_colors_by_type]. unfold theme_item. rewrite Forall_cons.
    destruct (THEME !! color_key (highway_of (edge_data e))) as [c |] eqn:Hc.
    + rewrite <- IH. split.
      * intros (cs & Hcs). split; [eauto |].
        destruct (get_edge_colors_by_type THEME rest) as [err | cs'];
          [discriminate Hcs | now eexists].
      * intros (_ & cs & Hcs). rewrite Hcs. now eexists.
    + split.
      * intros (cs & Hcs). discriminate Hcs.
      * intros ([c Habs] & _). discriminate Habs.
Qed.

(** What it raises is the [KeyError] of a road role the theme lacks. *)
Lemma edge_colors_error (THEME : Theme) (G : Graph) (err : exn) :
  get_edge_colors_by_type THEME G = inl err ->
  exists role, role ∈ road_roles /\ THEME !! role = None /\ err = Exn "KeyError" role.
Proof.
  induction G as [| e rest IH]; [discriminate |].
  cbn [get_edge_colors_by_type]. unfold theme_item.
  destruct (THEME !! color_key (highway_of (edge_data e))) as [c |] eqn:Hc.
  - destruct (get_edge_colors_by_type THEME rest) as [err' | cs]; [| discriminate].
    intros [= ->]. now apply IH.
  - intros [= <-]. exists (color_key (highway_of (edge_data e))).
    split; [apply color_key_role | split; [exact Hc | reflexivity]].
Qed.

(** C2, as the code has it. The road classification is total: the highway
    type consulted is the string itself, the first element of a non-empty
    list, or ['unclassified'] for an empty list or a missing tag; the
    motorway family gets the first color role and the widest stroke, the
    trunk/primary family the next, then secondary, tertiary, the
    residential family, and every other type the default. The width loop
    never raises and returns one width per edge. The color loop looks the
    role up in the theme, and only one of the six road roles: it returns
    one color per edge whenever the theme defines the six roles, it
    returns exactly when the theme defines the role of every edge, and
    what it raises otherwise is the [KeyError] of a road role the theme
    lacks. *)
Theorem road_classification_total (THEME : Theme) (G : Graph) :
  (forall data s, data !! "highway" = Some (TagStr s) -> highway_of data = s) /\
  (forall data h rest,
      data !! "highway" = Some (TagList (h :: rest)) -> highway_of data = h) /\
  (forall data,
      data !! "highway" = Some (TagList []) \/ data !! "highway" = None ->
      highway_of data = "unclassified") /\
  (forall h, h ∈ ["motorway"; "motorway_link"] ->
      color_key h = "road_motorway" /\ edge_width h = 1.2%Q) /\
  (forall h, h ∈ ["trunk"; "trunk_link"; "primary"; "primary_link"] ->
      color_key h = "road_primary" /\ edge_width h = 1.0%Q) /\
  (forall h, h ∈ ["secondary"; "secondary_link"] ->
      color_key h = "road_secondary" /\ edge_width h = 0.8%Q) /\
  (forall h, h ∈ ["tertiary"; "tertiary_link"] ->
      color_key h = "road_tertiary" /\ edge_width h = 0.6%Q) /\
  (forall h, h ∈ ["residential"; "living_street"; "unclassified"] ->
      color_key h = "road_residential" /\ edge_width h = 0.4%Q) /\
  (forall h, h ∉ named_highways ->
      color_key h = "road_default" /\ edge_width h = 0.4%Q) /\
  (0.4 < 0.6 /\ 0.6 < 0.8 /\ 0.8 < 1.0 /\ 1.0 < 1.2)%Q /\
  (forall h, color_key h ∈ road_roles) /\
  Forall2 (fun e w => w = edge_width (highway_of (edge_data e)))
          G (get_edge_widths_by_type G) /\
  ((forall role, role ∈ road_roles -> is_Some (THEME !! role)) ->
   exists edge_colors,
     get_edge_colors_by_type THEME G = inr edge_colors /\
     Forall2 (fun e c => THEME !! color_key (highway_of (edge_data e)) = Some c)
             G edge_colors) /\
  ((exists edge_colors, get_edge_colors_by_type THEME G = inr edge_colors) <->
   Forall (fun e => is_Some (THEME !! color_key (highway_of (edge_data e)))) G) /\
  (forall err,
     get_edge_colors_by_type THEME G = inl err ->
     exists role,
       role ∈ road_roles /\ THEME !! role = None /\ err = Exn "KeyError" role).
Proof.
  assert (Hfamily : forall (h : string) (fam : list string) key w,
             Forall (fun x => color_key x = key /\ edge_width x = w) fam ->
             h ∈ fam -> color_key h = key /\ edge_width h = w).
  { intros h fam key w Hall Hin. rewrite Forall_forall in Hall. now apply Hall. }
  repeat apply conj.
  - intros data s Hd. unfold highway_of. now rewrite Hd.
  - intros data h rest Hd. unfold highway_of. now rewrite Hd.
  - intros data [Hd | Hd]; unfold highway_of; now rewrite Hd.
  - intros h. apply Hfamily. repeat constructor.
  - intros h. apply Hfamily. repeat constructor.
  - intros h. apply Hfamily. repeat constructor.
  - intros h. apply Hfamily. repeat constructor.
  - intros h. apply Hfamily. repeat constructor.
  - intros h Hn. destruct (unnamed_highway h Hn) as (E1 & E2 & E3 & E4 & E5).
    unfold color_key, edge_width. now rewrite E1, E2, E3, E4, E5.
  - reflexivity.
  - reflexivity.
  - reflexivity.
  - reflexivity.
  - apply color_key_role.
  - unfold get_edge_widths_by_type. induction G; constructor; auto.
  - apply edge_colors_total.
  - apply edge_colors_returns_iff.
  - apply edge_colors_returns_iff.
  - apply edge_colors_error.
Qed.

(** The built-in theme and a graph with a motorway, a residential list
    tag, an unnamed type and an untagged edge. *)
Lemma road_classification_witness :
  Forall2 (fun e w => w = edge_width (highway_of (edge_data e)))
          Sample.graph (get_edge_widths_by_type Sample.graph) /\
  exists edge_colors,
    get_edge_colors_by_type default_theme Sample.graph = inr edge_colors /\
    Forall2 (fun e c => default_theme !! color_key (highway_of (edge_data e)) = Some c)
            Sample.graph edge_colors.
Proof.
  assert (Hroles : forall role, role ∈ road_roles -> is_Some (default_theme !! role)).
  { intros role Hin. unfold road_roles in Hin.
    rewrite !elem_of_cons, elem_of_nil in Hin.
    repeat (destruct Hin as [-> | Hin]; [eexists; reflexivity |]).
    destruct Hin. }
  destruct (road_classification_total default_theme Sample.graph)
    as (_ & _ & _ & _ & _ & _ & _ & _ & _ & _ & _ & Hw & Hc & _).
  split; [exact Hw | exact (Hc Hroles)].
Defined.

(** C2, as stated, fails: a theme file is not checked for the road roles
    when it is loaded, and on a theme without the default role the color
    loop raises at the first edge of a type it does not name. *)
Lemma road_classification_missing_role_counterexample :
  (forall role, role ∈ required_roles -> role <> "road_default" ->
     is_Some (Demo.partial_theme !! role)) /\
  Sample.graph !! 2%nat = Some Sample.track_edge /\
  edge_data Sample.track_edge !! "highway" = Some (TagStr "track") /\
  get_edge_colors_by_type Demo.partial_theme Sample.graph
  = inl (Exn "KeyError" "road_default").
Proof.
  repeat apply conj; try (vm_compute; reflexivity).
  intros role Hin Hne. unfold required_roles in Hin.
  rewrite !elem_of_cons, elem_of_nil in Hin.
  repeat (destruct Hin as [-> | Hin];
          [first [eexists; vm_compute; reflexivity | contradiction] |]).
  destruct Hin.
Qed.







(** ** Poster composer *)

Lemma contains_char_app (a : ascii) (s t : string) :
  PyStr.contains_char a (s ++ t)
  = PyStr.contains_char a s || PyStr.contains_char a t.
Proof.
  induction s as [| c r IH]; [reflexivity |].
  simpl. now rewrite IH, orb_assoc.
Qed.

Lemma replace_app (a b : ascii) (s t : string) :
  PyStr.replace a b (s ++ t) = PyStr.replace a b s ++ PyStr.replace a b t.
Proof.
  induction s as [| c r IH]; [reflexivity |].
  simpl. now rewrite IH.
Qed.

Lemma replace_absent (a b : ascii) (s : string) :
  PyStr.contains_char a s = false -> PyStr.replace a b s = s.
Proof.
  induction s as [| c r IH]; [reflexivity |].
  simpl. intros Hc.
  apply orb_false_iff in Hc. destruct Hc as [Hc Hr].
  now rewrite Hc, (IH Hr).
Qed.

(** A formatted number is made of digits, a point and a minus sign. *)
Lemma str_of_int_no_E (n : Z) : PyStr.contains_char "E" (PyStr.str_of_int n) = false.
Proof.
  assert (Hu : forall d, PyStr.contains_char "E" (NilEmpty.string_of_uint d) = false).
  { induction d; cbn; auto. }
  unfold PyStr.str_of_int, NilZero.string_of_int, NilZero.string_of_uint.
  destruct (Z.to_int n) as [d | d]; destruct d; cbn; auto; apply Hu.
Qed.

Lemma digits_no_E (k : nat) (n : Z) :
  PyStr.contains_char "E" (PyStr.digits k n) = false.
Proof.
  revert n. induction k as [| k IH]; intros n; [reflexivity |].
  cbn [PyStr.digits]. now rewrite contains_char_app, IH, str_of_int_no_E.
Qed.

Lemma format_f_no_E (x : Q) : PyStr.contains_char "E" (PyStr.format_f 4 x) = false.
Proof.
  unfold PyStr.format_f.
  rewrite !contains_char_app, str_of_int_no_E, digits_no_E.
  destruct (Qlt_le_dec x 0); reflexivity.
Qed.

(** A negative number is printed as a minus sign and its absolute value. *)
Lemma format_f_negative (x : Q) :
  Qle_bool 0 x = false ->
  PyStr.format_f 4 x = "-" ++ PyStr.format_f 4 (Qabs x).
Proof.
  intros Hneg.
  assert (Hlt : (x < 0)%Q).
  { apply Qnot_le_lt. intros Hle. apply Qle_bool_iff in Hle. congruence. }
  unfold PyStr.format_f.
  destruct (Qlt_le_dec x 0) as [_ | Hge]; [| exfalso; exact (Qlt_not_le _ _ Hlt Hge)].
  destruct (Qlt_le_dec (Qabs x) 0) as [Habs | _].
  { exfalso. exact (Qlt_not_le _ _ Habs (Qabs_nonneg x)). }
  assert (Hidem : Qabs (Qabs x) = Qabs x).
  { destruct x as [[| n | n] d]; reflexivity. }
  now rewrite Hidem.
Qed.

(** C6. What the code prints, for every point: the latitude as the claim
    has it (absolute value, N or S by sign), the letter E or W by the sign
    of the longitude, and the longitude formatted as it is; so for every
    negative longitude the text carries a minus sign in front of the
    absolute degrees, as in [-74.0060 W] for New York. *)
Theorem coords_text_western_longitude :
  (forall lat lon,
      coords_text (lat, lon)
      = (if Qle_bool 0 lat then PyStr.format_f 4 lat else PyStr.format_f 4 (Qabs lat))
        ++ deg ++ (if Qle_bool 0 lat then " N / " else " S / ")
        ++ PyStr.format_f 4 lon ++ deg
        ++ (if Qle_bool 0 lon then " E" else " W")) /\
  (forall lon,
      Qle_bool 0 lon = false ->
      PyStr.format_f 4 lon = "-" ++ PyStr.format_f 4 (Qabs lon)) /\
  coords_text Sample.new_york
  = "40.7128" ++ deg ++ " N / -74.0060" ++ deg ++ " W" /\
  coords_text ((-33.4489)%Q, (-70.6693)%Q)
  = "33.4489" ++ deg ++ " S / -70.6693" ++ deg ++ " W" /\
  coords_text Sample.paris
  = "48.8566" ++ deg ++ " N / 2.3522" ++ deg ++ " E".
Proof.
  repeat apply conj.
  - intros lat lon. unfold coords_text.
    destruct (Qle_bool 0 lon); cbn [negb]; [destruct (Qle_bool 0 lat); reflexivity |].
    destruct (Qle_bool 0 lat);
      rewrite !replace_app, !(replace_absent _ _ _ (format_f_no_E _));
      reflexivity.
  - exact format_f_negative.
  - vm_compute. reflexivity.
  - vm_compute. reflexivity.
  - vm_compute. reflexivity.
Qed.

(** ** Theme store *)

(** C7. [load_theme] on a name whose file is missing prints the warning
    and returns the built-in theme, which defines every color role; on a
    name whose file opens and parses to an object, it returns that
    object. *)
Theorem load_theme_fallback `{Json} (fs : Fs) (theme_name : string) :
  let theme_file := path_join THEMES_DIR (theme_name ++ ".json") in
  (path_exists fs theme_file = false ->
     load_theme theme_name fs
     = (inr default_theme, fs, [Print (MThemeNotFound theme_file)])) /\
  (forall role, role ∈ required_roles -> is_Some (default_theme !! role)) /\
  (forall content theme,
     files fs !! theme_file = Some content ->
     rd_fault fs !! theme_file = None ->
     json_load content = inr (JObject theme) ->
     outcome (load_theme theme_name fs) = inr theme /\
     final (load_theme theme_name fs) = fs).
Proof.
  intros theme_file. repeat apply conj.
  - intros Hmiss. subst theme_file. unfold load_theme. py_unfold.
    rewrite Hmiss. reflexivity.
  - intros role Hin. unfold required_roles in Hin.
    rewrite !elem_of_cons, elem_of_nil in Hin.
    repeat (destruct Hin as [-> | Hin]; [eexists; reflexivity |]).
    destruct Hin.
  - intros content theme Hfile Hread Hjson.
    pose proof (file_exists _ _ _ Hfile) as Hex. subst theme_file.
    unfold load_theme. py_unfold.
    rewrite Hex. py_red. rewrite Hread, Hfile. py_red. rewrite Hjson. py_red.
    destruct (theme !! "description"); split; reflexivity.
Qed.

(** A name with no file, and the theme file [noir.json]. *)
Lemma load_theme_witness :
  outcome (load_theme "sunset" Sample.fs) = inr default_theme /\
  trace (load_theme "sunset" Sample.fs) = [Print (MThemeNotFound "themes/sunset.json")] /\
  outcome (load_theme "noir" Sample.fs) = inr {[ "name" := JStr "Noir" ]}.
Proof.
  destruct (load_theme_fallback Sample.fs "sunset") as (Hmiss & _ & _).
  destruct (load_theme_fallback Sample.fs "noir") as (_ & _ & Hhit).
  rewrite Hmiss by reflexivity.
  repeat apply conj.
  - reflexivity.
  - reflexivity.
  - apply (Hhit "Noir"); reflexivity.
Defined.

(** ** Gradient compositor *)

Lemma linspace_length (start stop : Q) (num : nat) :
  length (linspace start stop num) = num.
Proof.
  destruct num as [| [| n]]; try reflexivity.
  cbn [linspace]. rewrite length_app, length_map, length_seq. cbn. lia.
Qed.

(** Sample [i] of [num = n + 2] samples lies on the line from [start] to
    [stop]; the last sample is [stop] itself. *)
Lemma linspace_lookup (start stop : Q) (n i : nat) :
  (i <= S n)%nat ->
  exists a,
    linspace start stop (S (S n)) !! i = Some a /\
    (a == start + inject_Z (Z.of_nat i) * (stop - start) / inject_Z (Z.of_nat (S n)))%Q.
Proof.
  intros Hi.
  assert (Hden : ~ (inject_Z (Z.of_nat (S n)) == 0)%Q).
  { unfold Qeq. cbn. lia. }
  cbn [linspace].
  destruct (decide (i = S n)) as [-> | Hne].
  - exists stop. split.
    + rewrite lookup_app_r; rewrite length_map, length_seq; [| lia].
      now rewrite Nat.sub_diag.
    + field. exact Hden.
  - eexists. split.
    + rewrite lookup_app_l by (rewrite length_map, length_seq; lia).
      rewrite list_lookup_fmap, lookup_seq_lt by lia. reflexivity.
    + cbn [Nat.add]. field. exact Hden.
Qed.

Lemma linspace_last (start stop : Q) (n : nat) :
  linspace start stop (S (S n)) !! S n = Some stop.
Proof.
  cbn [linspace].
  rewrite lookup_app_r; rewrite length_map, length_seq; [| lia].
  now rewrite Nat.sub_diag.
Qed.

Lemma alpha_of_rows (r g b : Q) (alpha : list Q) :
  map snd (map (fun a => (r, g, b, a)) alpha) = alpha.
Proof. induction alpha as [| a l IH]; [reflexivity | cbn; now rewrite IH]. Qed.

Lemma rgb_of_rows (r g b : Q) (alpha : list Q) :
  Forall (fun row : Q * Q * Q * Q => row.1 = (r, g, b))
         (map (fun a => (r, g, b, a)) alpha).
Proof. induction alpha; constructor; auto. Qed.

(** The sample positions as fractions of the ramp. *)
Lemma ramp_up (i : nat) :
  (i < 256)%nat ->
  exists a, linspace 0 1 256 !! i = Some a /\ (a == inject_Z (Z.of_nat i) / 255)%Q.
Proof.
  intros Hi. destruct (linspace_lookup 0 1 254 i ltac:(lia)) as (a & Ha & Heq).
  exists a. split; [exact Ha |].
  rewrite Heq. change (inject_Z (Z.of_nat 255)) with 255%Q. field.
Qed.

Lemma ramp_down (i : nat) :
  (i < 256)%nat ->
  exists a, linspace 1 0 256 !! i = Some a /\ (a == 1 - inject_Z (Z.of_nat i) / 255)%Q.
Proof.
  intros Hi. destruct (linspace_lookup 1 0 254 i ltac:(lia)) as (a & Ha & Heq).
  exists a. split; [exact Ha |].
  rewrite Heq. change (inject_Z (Z.of_nat 255)) with 255%Q. field.
Qed.

Lemma fraction_lt (i j : nat) :
  (i < j)%nat -> (inject_Z (Z.of_nat i) / 255 < inject_Z (Z.of_nat j) / 255)%Q.
Proof. intros Hij. unfold Qlt, Qdiv, Qmult, Qinv, inject_Z. cbn. lia. Qed.

(** C4. For every base color the parser accepts and either anchor, the
    overlay has 256 colormap rows whose red, green and blue are the base
    color's; its alpha runs linearly, [1 - i/255] for the bottom anchor
    (strictly decreasing, from 1 to 0) and [i/255] for the top anchor
    (strictly increasing, from 0 to 1); and its extent covers one quarter
    of the vertical axis range, starting at the lower limit for the bottom
    anchor and ending at the upper limit for the top anchor. *)
Theorem gradient_alpha_ramp `{Colors}
    (ax : Axes) (color : JVal) (location : string) (zorder : Z) (r g b : Q) :
  to_rgb color = inr (r, g, b) ->
  exists o,
    create_gradient_fade ax color location zorder = inr o /\
    length (ov_colors o) = 256%nat /\
    Forall (fun row : Q * Q * Q * Q => row.1 = (r, g, b)) (ov_colors o) /\
    (ov_y_top o - ov_y_bottom o == (snd (ylim ax) - fst (ylim ax)) / 4)%Q /\
    (location = "bottom" ->
       (forall i, (i < 256)%nat ->
          exists a, ov_alpha o !! i = Some a /\
                    (a == 1 - inject_Z (Z.of_nat i) / 255)%Q) /\
       (forall i j a a', (i < j)%nat ->
          ov_alpha o !! i = Some a -> ov_alpha o !! j = Some a' -> (a' < a)%Q) /\
       (exists first, ov_alpha o !! 0%nat = Some first /\ (first == 1)%Q) /\
       ov_alpha o !! 255%nat = Some 0%Q /\
       (ov_y_bottom o == fst (ylim ax))%Q) /\
    (location <> "bottom" ->
       (forall i, (i < 256)%nat ->
          exists a, ov_alpha o !! i = Some a /\
                    (a == inject_Z (Z.of_nat i) / 255)%Q) /\
       (forall i j a a', (i < j)%nat ->
          ov_alpha o !! i = Some a -> ov_alpha o !! j = Some a' -> (a < a')%Q) /\
       (exists first, ov_alpha o !! 0%nat = Some first /\ (first == 0)%Q) /\
       ov_alpha o !! 255%nat = Some 1%Q /\
       (ov_y_top o == snd (ylim ax))%Q).
Proof.
  intros Hrgb. unfold create_gradient_fade. rewrite Hrgb.
  destruct (String.eqb location "bottom") eqn:Hloc.
  - apply String.eqb_eq in Hloc. subst location.
    eexists. split; [reflexivity |].
    unfold ov_alpha, ov_y_top, ov_y_bottom. cbn [ov_colors ov_extent fst snd].
    rewrite alpha_of_rows.
    repeat apply conj.
    + now rewrite length_map, linspace_length.
    + apply rgb_of_rows.
    + field.
    + intros _. repeat apply conj.
      * exact ramp_down.
      * intros i j a a' Hij Hi Hj.
        assert (Hj256 : (j < 256)%nat).
        { apply lookup_lt_Some in Hj. now rewrite linspace_length in Hj. }
        destruct (ramp_down i ltac:(lia)) as (x & Hx & Hxe).
        destruct (ramp_down j Hj256) as (y & Hy & Hye).
        rewrite Hx in Hi. rewrite Hy in Hj.
        injection Hi as <-. injection Hj as <-.
        rewrite Hxe, Hye. pose proof (fraction_lt i j Hij). lra.
      * destruct (ramp_down 0 ltac:(lia)) as (x & Hx & Hxe).
        exists x. split; [exact Hx |]. rewrite Hxe. reflexivity.
      * apply (linspace_last 1 0 254).
      * ring.
    + intros Hne. now contradiction Hne.
  - apply String.eqb_neq in Hloc.
    eexists. split; [reflexivity |].
    unfold ov_alpha, ov_y_top, ov_y_bottom. cbn [ov_colors ov_extent fst snd].
    rewrite alpha_of_rows.
    repeat apply conj.
    + now rewrite length_map, linspace_length.
    + apply rgb_of_rows.
    + field.
    + intros Heq. contradiction.
    + intros _. repeat apply conj.
      * exact ramp_up.
      * intros i j a a' Hij Hi Hj.
        assert (Hj256 : (j < 256)%nat).
        { apply lookup_lt_Some in Hj. now rewrite linspace_length in Hj. }
        destruct (ramp_up i ltac:(lia)) as (x & Hx & Hxe).
        destruct (ramp_up j Hj256) as (y & Hy & Hye).
        rewrite Hx in Hi. rewrite Hy in Hj.
        injection Hi as <-. injection Hj as <-.
        rewrite Hxe, Hye. apply fraction_lt, Hij.
      * destruct (ramp_up 0 ltac:(lia)) as (x & Hx & Hxe).
        exists x. split; [exact Hx |]. rewrite Hxe. reflexivity.
      * apply (linspace_last 0 1 254).
      * ring.
Qed.

(** A white fade at the top of an axis that runs from 100 to 116: it
    covers 112 to 116. *)
Lemma gradient_alpha_witness :
  exists o,
    create_gradient_fade Sample.axes (JStr "#FFFFFF") "top" 10 = inr o /\
    length (ov_colors o) = 256%nat /\
    (ov_y_top o - ov_y_bottom o == (116 - 100) / 4)%Q /\
    (ov_y_top o == 116)%Q.
Proof.
  assert (Hwhite : to_rgb (JStr "#FFFFFF") = inr (1%Q, 1%Q, 1%Q)).
  { vm_compute. reflexivity. }
  destruct (gradient_alpha_ramp Sample.axes (JStr "#FFFFFF") "top" 10 1 1 1
              Hwhite) as (o & Ho & Hlen & _ & Hq & _ & Htop).
  exists o. repeat apply conj; try assumption.
  apply Htop. discriminate.
Defined.

(** ** Cache keys *)

Lemma lower_char_idem (c : ascii) :
  PyStr.lower_char (PyStr.lower_char c) = PyStr.lower_char c.
Proof.
  destruct c as [b0 b1 b2 b3 b4 b5 b6 b7];
    destruct b0, b1, b2, b3, b4, b5, b6, b7; vm_compute; reflexivity.
Qed.

Lemma lower_app (s t : string) : PyStr.lower (s ++ t) = PyStr.lower s ++ PyStr.lower t.
Proof.
  induction s as [| c r IH]; [reflexivity |].
  simpl. now rewrite IH.
Qed.

Lemma lower_idem (s : string) : PyStr.lower (PyStr.lower s) = PyStr.lower s.
Proof.
  induction s as [| c r IH]; [reflexivity |].
  cbn [PyStr.lower]. now rewrite lower_char_idem, IH.
Qed.

(** A name and its variant with underscores for spaces have one slug. *)
Lemma slug_of_underscores (s : string) :
  PyStr.replace " " "_" (PyStr.lower (PyStr.replace " " "_" s))
  = PyStr.replace " " "_" (PyStr.lower s).
Proof.
  induction s as [| c r IH]; [reflexivity |].
  cbn [PyStr.replace PyStr.lower]. rewrite IH. f_equal.
  destruct (Ascii.eqb_spec c " ") as [-> | Hne]; reflexivity.
Qed.

(** A slug holds no space. *)
Lemma replace_removes (a b : ascii) (s : string) :
  a <> b -> PyStr.contains_char a (PyStr.replace a b s) = false.
Proof.
  intros Hab. induction s as [| c r IH]; [reflexivity |].
  cbn [PyStr.replace PyStr.contains_char]. rewrite IH.
  destruct (Ascii.eqb_spec c a) as [-> | Hca].
  - destruct (Ascii.eqb_spec b a) as [-> | _]; [contradiction | reflexivity].
  - destruct (Ascii.eqb_spec c a) as [-> | _]; [contradiction | reflexivity].
Qed.

Lemma str_of_int_no_space (n : Z) :
  PyStr.contains_char " " (PyStr.str_of_int n) = false.
Proof.
  assert (Hu : forall d, PyStr.contains_char " " (NilEmpty.string_of_uint d) = false).
  { induction d; cbn; auto. }
  unfold PyStr.str_of_int, NilZero.string_of_int, NilZero.string_of_uint.
  destruct (Z.to_int n) as [d | d]; destruct d; cbn; auto; apply Hu.
Qed.

Lemma cache_path_no_space (city country : string) (dist : Z) :
  PyStr.contains_char " " (cache_path_of city country dist) = false.
Proof.
  assert (Hname : PyStr.contains_char " "
            (PyStr.replace " " "_" (PyStr.lower city) ++ "_"
             ++ PyStr.replace " " "_" (PyStr.lower country) ++ "_"
             ++ PyStr.str_of_int dist ++ ".pkl") = false).
  { rewrite !contains_char_app, !replace_removes, str_of_int_no_space by discriminate.
    reflexivity. }
  unfold cache_path_of, path_join.
  destruct (PyStr.startswith "/" _); [exact Hname |].
  change (String.eqb CACHE_DIR "" || PyStr.endswith "/" CACHE_DIR) with false.
  cbv iota.
  rewrite (contains_char_app " " CACHE_DIR), (contains_char_app " " "/"), Hname.
  reflexivity.
Qed.

(** ** Geo cache *)

Lemma with_cache_dir_files (fs : Fs) :
  files (with_cache_dir fs) = files fs /\
  rd_fault (with_cache_dir fs) = rd_fault fs /\
  wr_fault (with_cache_dir fs) = wr_fault fs.
Proof. unfold with_cache_dir. destruct (path_exists fs CACHE_DIR); now cbn. Qed.

Lemma with_cache_dir_exists (fs : Fs) :
  path_exists (with_cache_dir fs) CACHE_DIR = true.
Proof.
  unfold with_cache_dir. destruct (path_exists fs CACHE_DIR) eqn:E; [exact E |].
  unfold path_exists. cbn [dirs set_dirs].
  rewrite (bool_decide_eq_true_2 (CACHE_DIR ∈ {[CACHE_DIR]} ∪ dirs fs)) by set_solver.
  apply orb_true_r.
Qed.

Lemma with_cache_dir_id (fs : Fs) :
  path_exists fs CACHE_DIR = true -> with_cache_dir fs = fs.
Proof. intros Hdir. unfold with_cache_dir. now rewrite Hdir. Qed.

Lemma path_exists_insert (fs : Fs) (p q c : string) :
  path_exists fs q = true ->
  path_exists (set_files (<[p := c]> (files fs)) fs) q = true.
Proof.
  unfold path_exists. cbn [files dirs set_files]. intros Hq.
  apply orb_true_iff in Hq. apply orb_true_iff.
  destruct Hq as [Hq | Hq]; [left | right; exact Hq].
  apply bool_decide_eq_true in Hq. apply bool_decide_eq_true.
  destruct (decide (p = q)) as [-> | Hne].
  - rewrite lookup_insert_eq. eauto.
  - now rewrite lookup_insert_ne.
Qed.

Lemma fetches_app (t1 t2 : list Event) :
  fetches (t1 ++ t2) = (fetches t1 + fetches t2)%nat.
Proof. unfold fetches. now rewrite List.filter_app, length_app. Qed.

(** Past the street network the download always completes, with the same
    events, whatever the two feature fetches do. *)
Lemma download_ok (net : Net) (point : Q * Q) (dist : Z) (G : Graph) (fs : Fs) :
  graph_from_point net point dist = inr G ->
  download net point dist fs
  = (inr (G, layer (features_from_point net point water_tags dist),
             layer (features_from_point net point park_tags dist)),
     fs, download_events point dist).
Proof.
  intros HG. unfold download, fetch_streets, fetch_features. py_unfold.
  rewrite HG. py_red.
  destruct (features_from_point net point water_tags dist);
    destruct (features_from_point net point park_tags dist); reflexivity.
Qed.

Lemma download_fails (net : Net) (point : Q * Q) (dist : Z) (e : exn) (fs : Fs) :
  graph_from_point net point dist = inl e ->
  download net point dist fs
  = (inl e, fs,
     [Print MCacheMiss; PbarDescription "Downloading street network";
      Call (FetchStreets point dist)]).
Proof.
  intros HG. unfold download, fetch_streets. py_unfold. rewrite HG. reflexivity.
Qed.

Section GeoCache.

Context `{Pickle}.

(** *** The cache check *)

(** It neither raises nor fetches nor touches the files. *)
Lemma check_cache_total (cache_path : string) (fs : Fs) :
  exists cached t,
    check_cache cache_path fs = (inr cached, fs, t) /\ fetches t = 0%nat.
Proof.
  unfold check_cache. py_unfold.
  destruct (path_exists fs cache_path); py_red; [| now eexists _, _].
  destruct (rd_fault fs !! cache_path); [now eexists _, _ |].
  destruct (files fs !! cache_path); py_red; [| now eexists _, _].
  destruct (pickle_load _); now eexists _, _.
Qed.

Lemma check_cache_corrupt (cache_path content : string) (e : exn) (fs : Fs) :
  files fs !! cache_path = Some content ->
  rd_fault fs !! cache_path = None ->
  pickle_load content = inl e ->
  check_cache cache_path fs
  = (inr None, fs,
     [Print (MFoundCached cache_path); Print MLoadingFromCache;
      Print (MCacheLoadError (exn_str e))]).
Proof.
  intros Hfile Hread Hload. pose proof (file_exists _ _ _ Hfile) as Hex.
  unfold check_cache. py_unfold.
  rewrite Hex. py_red. rewrite Hread, Hfile. py_red. rewrite Hload. reflexivity.
Qed.

Lemma check_cache_unreadable (cache_path content : string) (e : exn) (fs : Fs) :
  files fs !! cache_path = Some content ->
  rd_fault fs !! cache_path = Some e ->
  check_cache cache_path fs
  = (inr None, fs,
     [Print (MFoundCached cache_path); Print (MCacheLoadError (exn_str e))]).
Proof.
  intros Hfile Hread. pose proof (file_exists _ _ _ Hfile) as Hex.
  unfold check_cache. py_unfold. rewrite Hex. py_red. rewrite Hread. reflexivity.
Qed.

Lemma check_cache_hit (cache_path content : string) (data : PyValue) (fs : Fs) :
  files fs !! cache_path = Some content ->
  rd_fault fs !! cache_path = None ->
  pickle_load content = inr data ->
  check_cache cache_path fs
  = (inr (Some data), fs,
     [Print (MFoundCached cache_path); Print MLoadingFromCache;
      Print MLoadedFromCache]).
Proof.
  intros Hfile Hread Hload. pose proof (file_exists _ _ _ Hfile) as Hex.
  unfold check_cache. py_unfold.
  rewrite Hex. py_red. rewrite Hread, Hfile. py_red. rewrite Hload. reflexivity.
Qed.

(** *** The save block *)

(** It never raises. *)
Lemma save_to_cache_total (cache_path : string) (data : PyValue) (fs : Fs) :
  outcome (save_to_cache cache_path data fs) = inr tt.
Proof.
  unfold save_to_cache. py_unfold.
  destruct (wr_fault fs !! cache_path); [reflexivity |].
  destruct (bool_decide (cache_path ∈ dirs fs)); [reflexivity |]. py_red.
  destruct (pickle_dump data) as [[e written] | bytes]; reflexivity.
Qed.

Lemma save_to_cache_denied (cache_path : string) (data : PyValue)
    (e : exn) (fs : Fs) :
  wr_fault fs !! cache_path = Some e ->
  save_to_cache cache_path data fs
  = (inr tt, fs, [Print (MCouldNotSave (exn_str e))]).
Proof.
  intros Hw. unfold save_to_cache. py_unfold. rewrite Hw. reflexivity.
Qed.

Lemma save_to_cache_directory (cache_path : string) (data : PyValue) (fs : Fs) :
  wr_fault fs !! cache_path = None ->
  cache_path ∈ dirs fs ->
  save_to_cache cache_path data fs
  = (inr tt, fs, [Print (MCouldNotSave cache_path)]).
Proof.
  intros Hw Hd. unfold save_to_cache. py_unfold. rewrite Hw.
  rewrite (bool_decide_eq_true_2 _ Hd). reflexivity.
Qed.

Lemma save_to_cache_unpicklable (cache_path written : string)
    (data : PyValue) (e : exn) (fs : Fs) :
  wr_fault fs !! cache_path = None ->
  cache_path ∉ dirs fs ->
  pickle_dump data = inl (e, written) ->
  save_to_cache cache_path data fs
  = (inr tt, set_files (<[cache_path := written]> (files fs)) fs,
     [Print (MCouldNotSave (exn_str e))]).
Proof.
  intros Hw Hd Hdump. unfold save_to_cache. py_unfold. rewrite Hw.
  rewrite (bool_decide_eq_false_2 _ Hd). py_red. rewrite Hdump. py_red.
  unfold set_files. cbn [files dirs rd_fault wr_fault mk_fault broken_links].
  now rewrite insert_insert_eq.
Qed.

Lemma save_to_cache_stored (cache_path bytes : string) (data : PyValue) (fs : Fs) :
  wr_fault fs !! cache_path = None ->
  cache_path ∉ dirs fs ->
  pickle_dump data = inr bytes ->
  save_to_cache cache_path data fs
  = (inr tt, set_files (<[cache_path := bytes]> (files fs)) fs,
     [Print (MSavedToCache cache_path)]).
Proof.
  intros Hw Hd Hdump. unfold save_to_cache. py_unfold. rewrite Hw.
  rewrite (bool_decide_eq_false_2 _ Hd). py_red. rewrite Hdump. py_red.
  unfold set_files. cbn [files dirs rd_fault wr_fault mk_fault broken_links].
  now rewrite insert_insert_eq.
Qed.

(** *** One request *)

Section Request.

Variables (net : Net) (city country : string) (point : Q * Q) (dist : Z).
Variable fs : Fs.

(** The call gets past its first two lines. *)
Hypothesis Hready : cache_dir_ready fs.

Let cache_path := cache_path_of city country dist.
Let fs0 := with_cache_dir fs.
Let run := get_map_data net city country point dist fs.

(** The first two lines leave [fs0]; the rest of the function runs from
    there. *)
Lemma get_map_data_ready :
  run = (cached ← check_cache cache_path;
         match cached with
         | Some data => mret data
         | None => download_and_store net cache_path point dist
         end) fs0.
Proof.
  subst run cache_path fs0.
  unfold get_map_data, with_cache_dir, os_path_exists, os_makedirs.
  cbv [mbind mret Py_bind Py_ret py_bind py_ret get put raise].
  destruct (path_exists fs CACHE_DIR) eqn:Hdir; py_red.
  - destruct (check_cache _ fs) as [[[e | [data |]] s1] t1]; try reflexivity.
    destruct (download_and_store _ _ _ _ s1) as [[r2 s2] t2]. reflexivity.
  - destruct Hready as [Habs | Hmk]; [congruence |]. rewrite Hmk, Hdir. py_red.
    destruct (check_cache _ _) as [[[e | [data |]] s1] t1]; try reflexivity.
    destruct (download_and_store _ _ _ _ s1) as [[r2 s2] t2]. reflexivity.
Qed.

(** A cache check that gives nothing hands over to the download. *)
Lemma get_map_data_falls_through (t : list Event) :
  check_cache cache_path fs0 = (inr None, fs0, t) ->
  run = let '(r, fs1, t') := download_and_store net cache_path point dist fs0 in
        (r, fs1, (t ++ t')%list).
Proof.
  intros Hcc. rewrite get_map_data_ready.
  cbv [mbind Py_bind py_bind]. rewrite Hcc. reflexivity.
Qed.

(** A cache check that gives the entry ends the call. *)
Lemma get_map_data_hit (content : string) (data : PyValue) :
  files fs !! cache_path = Some content ->
  rd_fault fs !! cache_path = None ->
  pickle_load content = inr data ->
  run = (inr data, fs0,
         [Print (MFoundCached cache_path); Print MLoadingFromCache;
          Print MLoadedFromCache]).
Proof.
  intros Hfile Hread Hload.
  destruct (with_cache_dir_files fs) as (Hfiles & Hrd & _). fold fs0 in Hfiles, Hrd.
  rewrite <- Hfiles in Hfile. rewrite <- Hrd in Hread.
  rewrite get_map_data_ready. cbv [mbind Py_bind py_bind].
  rewrite (check_cache_hit cache_path content data fs0 Hfile Hread Hload).
  reflexivity.
Qed.

(** What the call does once the cache has given nothing and the street
    network has arrived. *)
Lemma get_map_data_fresh (G : Graph) :
  let data := PyTriple G (layer (features_from_point net point water_tags dist))
                         (layer (features_from_point net point park_tags dist)) in
  outcome (check_cache cache_path fs0) = inr None ->
  graph_from_point net point dist = inr G ->
  run = (inr data, final (save_to_cache cache_path data fs0),
         (trace (check_cache cache_path fs0) ++ download_events point dist
          ++ trace (save_to_cache cache_path data fs0))%list).
Proof.
  intros data Hmiss HG.
  destruct (check_cache_total cache_path fs0) as (cached & t & Hcc & _).
  rewrite Hcc in Hmiss |- *. cbn in Hmiss. injection Hmiss as ->.
  rewrite (get_map_data_falls_through t Hcc).
  unfold download_and_store. cbv [mbind mret Py_bind Py_ret py_bind py_ret].
  rewrite (download_ok net point dist G fs0 HG). py_red. fold data.
  pose proof (save_to_cache_total cache_path data fs0) as Hsave.
  destruct (save_to_cache cache_path data fs0) as [[[e | []] s1] t1];
    [discriminate Hsave |].
  cbn [final trace fst snd]. now rewrite app_nil_r.
Qed.

(** A download whose save goes through leaves the pickled triple in the
    cache file. *)
Lemma fresh_data_stored (G : Graph) (bytes : string) :
  let data := PyTriple G (layer (features_from_point net point water_tags dist))
                         (layer (features_from_point net point park_tags dist)) in
  outcome (check_cache cache_path fs0) = inr None ->
  graph_from_point net point dist = inr G ->
  wr_fault fs0 !! cache_path = None ->
  cache_path ∉ dirs fs0 ->
  pickle_dump data = inr bytes ->
  outcome run = inr data /\
  final run = set_files (<[cache_path := bytes]> (files fs0)) fs0.
Proof.
  intros data Hmiss HG Hw Hd Hdump.
  rewrite (get_map_data_fresh G Hmiss HG). fold data.
  rewrite (save_to_cache_stored cache_path bytes data fs0 Hw Hd Hdump).
  split; reflexivity.
Qed.

(** C1. In a call of [get_map_data] that gets past the cache directory:
    a cache file that opens but does not unpickle is reported and the call
    goes on as on a miss (the download and store path, from the same file
    system), and so does one that cannot be opened; on that path a failed
    water or park fetch leaves [None] in the result and the call still
    returns; a failed street-network fetch is raised to the caller, after
    that one fetch and with nothing stored. *)
Theorem get_map_data_failure_handling :
  (forall content e,
      files fs !! cache_path = Some content ->
      rd_fault fs !! cache_path = None ->
      pickle_load content = inl e ->
      outcome (check_cache cache_path fs0) = inr None /\
      run = let '(r, fs1, t) := download_and_store net cache_path point dist fs0 in
            (r, fs1,
             ([Print (MFoundCached cache_path); Print MLoadingFromCache;
               Print (MCacheLoadError (exn_str e))] ++ t)%list)) /\
  (forall content e,
      files fs !! cache_path = Some content ->
      rd_fault fs !! cache_path = Some e ->
      outcome (check_cache cache_path fs0) = inr None /\
      run = let '(r, fs1, t) := download_and_store net cache_path point dist fs0 in
            (r, fs1,
             ([Print (MFoundCached cache_path);
               Print (MCacheLoadError (exn_str e))] ++ t)%list)) /\
  (outcome (check_cache cache_path fs0) = inr None ->
   (forall G,
       graph_from_point net point dist = inr G ->
       outcome run
       = inr (PyTriple G (layer (features_from_point net point water_tags dist))
                         (layer (features_from_point net point park_tags dist)))) /\
   (forall G e,
       graph_from_point net point dist = inr G ->
       features_from_point net point water_tags dist = inl e ->
       exists parks, outcome run = inr (PyTriple G None parks)) /\
   (forall G e,
       graph_from_point net point dist = inr G ->
       features_from_point net point park_tags dist = inl e ->
       exists water, outcome run = inr (PyTriple G water None)) /\
   (forall e,
       graph_from_point net point dist = inl e ->
       outcome run = inl e /\
       final run = fs0 /\
       fetches (trace run) = 1%nat)).
Proof.
  destruct (with_cache_dir_files fs) as (Hfiles & Hrd & _). fold fs0 in Hfiles, Hrd.
  repeat apply conj.
  - intros content e Hfile Hread Hload.
    rewrite <- Hfiles in Hfile. rewrite <- Hrd in Hread.
    pose proof (check_cache_corrupt cache_path content e fs0 Hfile Hread Hload) as Hcc.
    split; [now rewrite Hcc |]. apply (get_map_data_falls_through _ Hcc).
  - intros content e Hfile Hread.
    rewrite <- Hfiles in Hfile. rewrite <- Hrd in Hread.
    pose proof (check_cache_unreadable cache_path content e fs0 Hfile Hread) as Hcc.
    split; [now rewrite Hcc |]. apply (get_map_data_falls_through _ Hcc).
  - intros Hmiss. repeat apply conj.
    + intros G HG. now rewrite (get_map_data_fresh G Hmiss HG).
    + intros G e HG Hwater. eexists.
      rewrite (get_map_data_fresh G Hmiss HG), Hwater. reflexivity.
    + intros G e HG Hparks. eexists.
      rewrite (get_map_data_fresh G Hmiss HG), Hparks. reflexivity.
    + intros e HG.
      destruct (check_cache_total cache_path fs0) as (cached & t & Hcc & Ht).
      rewrite Hcc in Hmiss. cbn in Hmiss. injection Hmiss as ->.
      rewrite (get_map_data_falls_through t Hcc).
      unfold download_and_store. cbv [mbind Py_bind py_bind].
      rewrite (download_fails net point dist e fs0 HG).
      repeat apply conj; try reflexivity.
      cbn [trace snd]. rewrite fetches_app, Ht. reflexivity.
Qed.

(** C9. Once the cache has given nothing and the street network has
    arrived, [get_map_data] returns the fetched triple whatever the save
    block does, and the save block runs: when the cache file cannot be
    opened for writing, or pickling fails, the failure is printed and the
    triple is returned all the same; when the write goes through, the file
    holds the pickled triple. *)
Theorem cache_write_failure_is_not_fatal (G : Graph) :
  let data := PyTriple G (layer (features_from_point net point water_tags dist))
                         (layer (features_from_point net point park_tags dist)) in
  let saving := save_to_cache cache_path data fs0 in
  outcome (check_cache cache_path fs0) = inr None ->
  graph_from_point net point dist = inr G ->
  outcome run = inr data /\
  final run = final saving /\
  trace run = (trace (check_cache cache_path fs0) ++ download_events point dist
               ++ trace saving)%list /\
  (forall e,
      wr_fault fs0 !! cache_path = Some e ->
      final run = fs0 /\
      trace saving = [Print (MCouldNotSave (exn_str e))]) /\
  (wr_fault fs0 !! cache_path = None ->
   cache_path ∈ dirs fs0 ->
      final run = fs0 /\
      trace saving = [Print (MCouldNotSave cache_path)]) /\
  (forall e written,
      wr_fault fs0 !! cache_path = None ->
      cache_path ∉ dirs fs0 ->
      pickle_dump data = inl (e, written) ->
      final run = set_files (<[cache_path := written]> (files fs0)) fs0 /\
      trace saving = [Print (MCouldNotSave (exn_str e))]) /\
  (forall bytes,
      wr_fault fs0 !! cache_path = None ->
      cache_path ∉ dirs fs0 ->
      pickle_dump data = inr bytes ->
      files (final run) !! cache_path = Some bytes /\
      trace saving = [Print (MSavedToCache cache_path)]).
Proof.
  intros data saving Hmiss HG.
  pose proof (get_map_data_fresh G Hmiss HG) as Hrun. fold data saving in Hrun.
  assert (Hfinal : final run = final saving) by now rewrite Hrun.
  repeat apply conj.
  - now rewrite Hrun.
  - exact Hfinal.
  - now rewrite Hrun.
  - intros e Hw. rewrite Hfinal. unfold saving.
    now rewrite (save_to_cache_denied cache_path data e fs0 Hw).
  - intros Hw Hd. rewrite Hfinal. unfold saving.
    now rewrite (save_to_cache_directory cache_path data fs0 Hw Hd).
  - intros e written Hw Hd Hdump. rewrite Hfinal. unfold saving.
    now rewrite (save_to_cache_unpicklable cache_path written data e fs0 Hw Hd Hdump).
  - intros bytes Hw Hd Hdump. rewrite Hfinal. unfold saving.
    rewrite (save_to_cache_stored cache_path bytes data fs0 Hw Hd Hdump).
    split; [| reflexivity].
    cbn [final fst snd files set_files]. apply lookup_insert_eq.
Qed.

End Request.

(** C3. The cache file of a request is named by the lowercased city and
    country with spaces turned into underscores, and the radius: the key
    of New York, USA, 12000 is [cache/new_york_usa_12000.pkl]; a key holds
    no space, and names that differ only in letter case or in underscores
    for spaces have the same key. When that
    file opens and unpickles, [get_map_data] returns its content at once:
    three messages, no fetch, nothing written. So after a call that had to
    download and whose save went through, a second call for the same city,
    country and radius (from any point, on any network) returns the same
    triple with no fetch, provided the stored bytes unpickle to what was
    pickled. *)
Theorem cache_round_trip (net net' : Net)
    (city country : string) (point point' : Q * Q) (dist : Z) (fs : Fs) :
  let cache_path := cache_path_of city country dist in
  let fs0 := with_cache_dir fs in
  let hit_trace := [Print (MFoundCached cache_path); Print MLoadingFromCache;
                    Print MLoadedFromCache] in
  cache_dir_ready fs ->
  cache_path
  = path_join CACHE_DIR
      (PyStr.replace " " "_" (PyStr.lower city) ++ "_"
       ++ PyStr.replace " " "_" (PyStr.lower country) ++ "_"
       ++ PyStr.str_of_int dist ++ ".pkl") /\
  cache_path_of "New York" "USA" 12000 = "cache/new_york_usa_12000.pkl" /\
  PyStr.contains_char " " cache_path = false /\
  cache_path_of (PyStr.lower city) (PyStr.lower country) dist = cache_path /\
  cache_path_of (PyStr.replace " " "_" city) (PyStr.replace " " "_" country) dist
  = cache_path /\
  fetches hit_trace = 0%nat /\
  (path_exists fs CACHE_DIR = true -> fs0 = fs) /\
  (forall content data,
      files fs !! cache_path = Some content ->
      rd_fault fs !! cache_path = None ->
      pickle_load content = inr data ->
      get_map_data net city country point dist fs = (inr data, fs0, hit_trace)) /\
  (forall G bytes,
      let data := PyTriple G (layer (features_from_point net point water_tags dist))
                             (layer (features_from_point net point park_tags dist)) in
      let first := get_map_data net city country point dist fs in
      outcome (check_cache cache_path fs0) = inr None ->
      graph_from_point net point dist = inr G ->
      wr_fault fs0 !! cache_path = None ->
      cache_path ∉ dirs fs0 ->
      pickle_dump data = inr bytes ->
      pickle_load bytes = inr data ->
      rd_fault fs0 !! cache_path = None ->
      outcome first = inr data /\
      files (final first) !! cache_path = Some bytes /\
      get_map_data net' city country point' dist (final first)
      = (inr data, final first, hit_trace)).
Proof.
  intros cache_path fs0 hit_trace Hready.
  repeat apply conj.
  - reflexivity.
  - reflexivity.
  - apply cache_path_no_space.
  - unfold cache_path, cache_path_of. now rewrite !lower_idem.
  - unfold cache_path, cache_path_of. now rewrite !slug_of_underscores.
  - reflexivity.
  - apply with_cache_dir_id.
  - intros content data. apply (get_map_data_hit net city country point dist fs Hready).
  - intros G bytes data first Hmiss HG Hw Hd Hdump Hload Hread.
    destruct (fresh_data_stored net city country point dist fs Hready G bytes
                Hmiss HG Hw Hd Hdump) as (Hout & Hfin).
    fold cache_path fs0 data first in Hout, Hfin.
    assert (Hdir : path_exists (final first) CACHE_DIR = true).
    { rewrite Hfin. apply path_exists_insert, with_cache_dir_exists. }
    repeat apply conj.
    + exact Hout.
    + rewrite Hfin. cbn [files set_files]. apply lookup_insert_eq.
    + rewrite <- (with_cache_dir_id (final first) Hdir) at 2.
      apply (get_map_data_hit net' city country point' dist (final first)
               (or_introl Hdir) bytes data).
      * rewrite Hfin. cbn [files set_files]. apply lookup_insert_eq.
      * rewrite Hfin. exact Hread.
      * exact Hload.
Qed.

End GeoCache.

(** A damaged cache entry with the water layer down, and the same request
    with the whole service down. *)
Lemma get_map_data_failure_witness :
  outcome (get_map_data Sample.net "New York" "USA" Sample.new_york 12000 Sample.fs)
  = inr (PyTriple Sample.graph None (Some Sample.parks)) /\
  outcome (get_map_data Sample.offline "New York" "USA" Sample.new_york 12000 Sample.fs)
  = inl (Exn "ConnectionError" "network unreachable").
Proof.
  assert (Hready : cache_dir_ready Sample.fs) by (left; reflexivity).
  destruct (get_map_data_failure_handling Sample.net "New York" "USA"
              Sample.new_york 12000 Sample.fs Hready) as (Hcorrupt & _ & Hmiss).
  destruct (get_map_data_failure_handling Sample.offline "New York" "USA"
              Sample.new_york 12000 Sample.fs Hready) as (_ & _ & Hoff).
  destruct (Hcorrupt "garbage" (Exn "UnpicklingError" "invalid load key")
              eq_refl eq_refl eq_refl) as [Hnone _].
  split.
  - destruct (Hmiss Hnone) as (_ & Hwater & _).
    destruct (Hwater Sample.graph
                (Exn "InsufficientResponseError" "No matching features")
                eq_refl eq_refl) as (parks & Hparks).
    rewrite Hparks. vm_compute in Hparks. injection Hparks as <-. reflexivity.
  - destruct (Hoff Hnone) as (_ & _ & _ & Hraise).
    apply (Hraise (Exn "ConnectionError" "network unreachable") eq_refl).
Defined.

(** A new request in a directory whose cache file cannot be written. *)
Lemma cache_write_failure_witness :
  outcome (get_map_data Sample.net "Paris" "France" Sample.paris 10000 Sample.readonly_fs)
  = inr Sample.triple /\
  final (get_map_data Sample.net "Paris" "France" Sample.paris 10000 Sample.readonly_fs)
  = Sample.readonly_fs.
Proof.
  assert (Hready : cache_dir_ready Sample.readonly_fs) by (left; reflexivity).
  destruct (cache_write_failure_is_not_fatal Sample.net "Paris" "France"
              Sample.paris 10000 Sample.readonly_fs Hready Sample.graph
              eq_refl eq_refl) as (Hout & _ & _ & Hdenied & _).
  split.
  - exact Hout.
  - apply (Hdenied (Exn "PermissionError" "Permission denied")). reflexivity.
Defined.

(** A first request for New York downloads and stores; the second one,
    spelled [new_york], made with the service down and from another
    point, is served from the cache. *)
Lemma cache_round_trip_witness :
  let first := get_map_data Sample.net "New York" "USA" Sample.new_york 5000 Sample.fs in
  let second :=
    get_map_data Sample.offline "new_york" "usa" Sample.paris 5000 (final first) in
  cache_path_of "New York" "USA" 5000 = "cache/new_york_usa_5000.pkl" /\
  cache_path_of "new_york" "usa" 5000 = "cache/new_york_usa_5000.pkl" /\
  outcome first = inr Sample.triple /\
  fetches (trace first) = 3%nat /\
  files (final first) !! "cache/new_york_usa_5000.pkl" = Some "pickled-triple" /\
  outcome second = inr Sample.triple /\
  fetches (trace second) = 0%nat.
Proof.
  intros first second.
  assert (Hready : cache_dir_ready Sample.fs) by (left; reflexivity).
  destruct (cache_round_trip Sample.net Sample.offline "New York" "USA"
              Sample.new_york Sample.paris 5000 Sample.fs Hready)
    as (_ & _ & _ & _ & _ & _ & _ & _ & Hround).
  assert (Hfile : cache_path_of "New York" "USA" 5000
                  ∉ dirs (with_cache_dir Sample.fs)).
  { intros Hin. apply (bool_decide_eq_true_2 _) in Hin.
    vm_compute in Hin. discriminate Hin. }
  destruct (Hround Sample.graph "pickled-triple" eq_refl eq_refl eq_refl
              Hfile eq_refl eq_refl eq_refl) as (Hfirst & Hstored & Hsecond).
  fold first in Hfirst, Hstored, Hsecond.
  assert (Hready2 : cache_dir_ready (final first)) by (left; vm_compute; reflexivity).
  destruct (cache_round_trip Sample.offline Sample.offline "new_york" "usa"
              Sample.paris Sample.paris 5000 (final first) Hready2)
    as (_ & _ & _ & _ & _ & _ & _ & Hhit & _).
  assert (Hread : rd_fault (final first) !! cache_path_of "new_york" "usa" 5000 = None)
    by (vm_compute; reflexivity).
  pose proof (Hhit "pickled-triple" Sample.triple Hstored Hread eq_refl) as Hagain.
  fold second in Hagain.
  repeat apply conj.
  - reflexivity.
  - reflexivity.
  - exact Hfirst.
  - vm_compute. reflexivity.
  - exact Hstored.
  - now rewrite Hagain.
  - now rewrite Hagain.
Defined.

(** ** Command line *)

(** One entry of the theme list is printed whatever its file holds. *)
Lemma theme_entry_total `{Json} (theme_name : string) (fs : Fs) :
  exists t, theme_entry theme_name fs = (inr tt, fs, t).
Proof.
  unfold theme_entry. py_unfold.
  destruct (rd_fault fs !! _); [now eexists |].
  destruct (files fs !! _); py_red; [| now eexists].
  destruct (json_load _) as [e | [theme_data | repr]]; now eexists.
Qed.

Lemma list_themes_total `{Json} (fs fs1 : Fs) (available : list string) (t : list Event) :
  get_available_themes fs = (inr available, fs1, t) ->
  exists t', list_themes fs = (inr tt, fs1, t').
Proof.
  intros Hav. unfold list_themes. cbv [mbind Py_bind py_bind]. rewrite Hav. py_red.
  assert (Hall : forall names,
             exists t', foldr (fun theme_name rest => theme_entry theme_name;; rest)
                              (mret tt) names fs1 = (inr tt, fs1, t')).
  { induction names as [| n names IH]; [now eexists |].
    destruct IH as (t1 & IH). destruct (theme_entry_total n fs1) as (t0 & Hn).
    cbn [foldr]. cbv [mbind Py_bind py_bind]. rewrite Hn. py_red.
    cbv [mbind Py_bind py_bind] in IH. rewrite IH. now eexists. }
  destruct available as [| a rest]; [now eexists |].
  cbv [print emit emit_in]. py_red.
  destruct (Hall (a :: rest)) as (t1 & H1).
  cbv [mbind Py_bind py_bind] in H1. rewrite H1. now eexists.
Qed.

Lemma theme_entry_line `{Json} (n : string) (fs : Fs) :
  exists display description,
    theme_entry n fs = (inr tt, fs, [Print (MThemeEntry n display description)]) /\
    ((display = n /\ description = "") \/
     exists content theme_data,
       files fs !! path_join THEMES_DIR (n ++ ".json") = Some content /\
       json_load content = inr (JObject theme_data) /\
       display = jval_str (dict_get theme_data "name" (JStr n))).
Proof.
  unfold theme_entry. py_unfold.
  destruct (rd_fault fs !! _); [eexists _, _; split; [reflexivity | now left] |].
  destruct (files fs !! _) as [content |] eqn:Hf; py_red;
    [| eexists _, _; split; [reflexivity | now left]].
  destruct (json_load content) as [e | [theme_data | repr]] eqn:Hj; py_red;
    try (eexists _, _; split; [reflexivity | now left]).
  eexists _, _; split; [reflexivity |]. right. now exists content, theme_data.
Qed.

Lemma theme_entries_run `{Json} (names : list string) (fs : Fs) :
  foldr (fun theme_name rest => theme_entry theme_name;; rest) (mret tt) names fs
  = (inr tt, fs, concat (map (fun n => trace (theme_entry n fs)) names)).
Proof.
  induction names as [| n names IH]; [reflexivity |].
  destruct (theme_entry_line n fs) as (d & desc & Hn & _).
  cbn [foldr map concat]. cbv [mbind Py_bind py_bind] in IH |- *.
  rewrite Hn. py_red. rewrite IH. reflexivity.
Qed.




(** ** Interactive editor *)

Lemma load_theme_reads `{Json} (fs : Fs) (theme_name content : string) (theme : Theme) :
  files fs !! path_join THEMES_DIR (theme_name ++ ".json") = Some content ->
  rd_fault fs !! path_join THEMES_DIR (theme_name ++ ".json") = None ->
  json_load content = inr (JObject theme) ->
  outcome (load_theme theme_name fs) = inr theme.
Proof.
  intros Hfile Hread Hjson. pose proof (file_exists _ _ _ Hfile) as Hex.
  unfold load_theme. py_unfold.
  rewrite Hex. py_red. rewrite Hread, Hfile. py_red. rewrite Hjson. py_red.
  destruct (theme !! "description"); reflexivity.
Qed.

(** Listing the themes may create the themes directory; it leaves every
    file and every read permission as it was. *)
Lemma get_available_themes_files (fs : Fs) :
  files (final (get_available_themes fs)) = files fs /\
  rd_fault (final (get_available_themes fs)) = rd_fault fs.
Proof.
  unfold get_available_themes. py_unfold.
  destruct (path_exists fs THEMES_DIR) eqn:Hdir; py_red.
  - destruct (bool_decide (THEMES_DIR ∈ dirs fs)); split; reflexivity.
  - destruct (mk_fault fs !! THEMES_DIR); [split; reflexivity |].
    rewrite Hdir. split; reflexivity.
Qed.

Lemma slug_chars_safe (s : string) :
  PyStr.filter_chars (fun c => PyStr.isalnum c || Ascii.eqb c "_")
    (PyStr.filter_chars (fun c => PyStr.isalnum c || Ascii.eqb c "_") s)
  = PyStr.filter_chars (fun c => PyStr.isalnum c || Ascii.eqb c "_") s.
Proof.
  induction s as [| c r IH]; [reflexivity |]. cbn [PyStr.filter_chars].
  destruct (PyStr.isalnum c || Ascii.eqb c "_") eqn:E; [| exact IH].
  cbn [PyStr.filter_chars]. now rewrite E, IH.
Qed.

(** A confirmed (or first) save to a writable file: the file holds the
    dumped theme, the theme carries the entered name. *)
Lemma save_theme_writes `{Json} (g : Gui) (new_name : string) (overwrite : bool) :
  let slug := slug_of new_name in
  let filepath := path_join THEMES_DIR (slug ++ ".json") in
  let saved := <["name" := JStr new_name]> (current_theme_data (gui_app g)) in
  let run := save_theme (Some new_name) overwrite g in
  new_name <> "" -> slug <> "" ->
  path_exists (gui_fs g) filepath = false \/ overwrite = true ->
  wr_fault (gui_fs g) !! filepath = None ->
  filepath ∉ dirs (gui_fs g) ->
  outcome run = inr tt /\
  files (gui_fs (final run)) !! filepath = Some (json_dump saved) /\
  rd_fault (gui_fs (final run)) = rd_fault (gui_fs g) /\
  current_theme_data (gui_app (final run)) = saved.
Proof.
  intros slug filepath saved run Hname Hslug Hgo Hw Hd.
  apply String.eqb_neq in Hname. apply String.eqb_neq in Hslug.
  unfold run, save_theme. py_unfold. rewrite Hname. fold slug. rewrite Hslug.
  fold filepath. py_red.
  assert (Hrest : overwrite = true \/ path_exists (gui_fs g) filepath = false)
    by tauto.
  destruct (path_exists (gui_fs g) filepath) eqn:Hex;
    [destruct Hrest as [-> | Habs]; [| discriminate Habs] |]; py_red;
    cbn [gui_fs gui_app]; rewrite Hw, (bool_decide_eq_false_2 _ Hd); py_red;
    cbn [gui_fs gui_app current_theme_data]; fold saved;
    match goal with |- context [get_available_themes ?X] =>
      pose proof (get_available_themes_files X) as [Hf Hr];
      destruct (get_available_themes X) as [[[e | l] fs'] t]
    end;
    cbn [final fst snd] in Hf, Hr;
    cbn [outcome final fst snd gui_fs gui_app current_theme_data];
    rewrite Hf, Hr; cbn [files rd_fault set_files];
    rewrite insert_insert_eq, lookup_insert_eq; repeat apply conj; reflexivity.
Qed.

(** C5, as the code has it. The identifier is the entered name lowercased,
    spaces turned into underscores, and every character that is neither
    alphanumeric nor an underscore dropped. A cancelled dialog or an empty
    name ends the save silently. A non-empty name whose identifier is empty
    gets the error dialog, and nothing is written. When a theme file with
    the identifier exists, the overwrite question is asked, and a "no"
    ends the save with nothing written. A save that goes ahead on a
    writable file stores the theme with its name field set to the entered
    name, so that loading by the identifier gives a theme with that name
    whenever the stored text parses back. *)
Theorem save_theme_contract `{Json} (g : Gui) (new_name : string) (overwrite : bool) :
  let keep := fun c => PyStr.isalnum c || Ascii.eqb c "_" in
  let slug := slug_of new_name in
  let filepath := path_join THEMES_DIR (slug ++ ".json") in
  let saved := <["name" := JStr new_name]> (current_theme_data (gui_app g)) in
  let run := save_theme (Some new_name) overwrite g in
  let asked :=
    Dialog (AskString "Save Theme"
      "Enter theme name (will be converted to snake_case filename):"
      (theme_var (gui_app g))) in
  let confirm :=
    Dialog (AskYesNo "Confirm Overwrite"
      ("Theme '" ++ slug ++ "' already exists. Overwrite?")) in
  slug = PyStr.filter_chars keep (PyStr.replace " " "_" (PyStr.lower new_name)) /\
  PyStr.filter_chars keep slug = slug /\
  slug_of "My Cool Theme!!" = "my_cool_theme" /\
  save_theme None overwrite g = (inr tt, g, [asked]) /\
  save_theme (Some "") overwrite g = (inr tt, g, [asked]) /\
  (new_name <> "" -> slug = "" ->
     run = (inr tt, g, [asked; Dialog (ShowError "Error" "Invalid theme name")])) /\
  (new_name <> "" -> slug <> "" ->
     path_exists (gui_fs g) filepath = true -> overwrite = false ->
     run = (inr tt, g, [asked; confirm])) /\
  (new_name <> "" -> slug <> "" ->
     path_exists (gui_fs g) filepath = true -> overwrite = true ->
     exists rest, trace run = (asked :: confirm :: rest)) /\
  (new_name <> "" -> slug <> "" ->
     path_exists (gui_fs g) filepath = false \/ overwrite = true ->
     wr_fault (gui_fs g) !! filepath = None ->
     filepath ∉ dirs (gui_fs g) ->
     outcome run = inr tt /\
     files (gui_fs (final run)) !! filepath = Some (json_dump saved) /\
     current_theme_data (gui_app (final run)) = saved /\
     saved !! "name" = Some (JStr new_name) /\
     (rd_fault (gui_fs g) !! filepath = None ->
      json_load (json_dump saved) = inr (JObject saved) ->
      exists loaded,
        outcome (load_theme slug (gui_fs (final run))) = inr loaded /\
        loaded !! "name" = Some (JStr new_name))).
Proof.
  intros keep slug filepath saved run asked confirm.
  destruct g as [fs app].
  repeat apply conj.
  - reflexivity.
  - apply slug_chars_safe.
  - reflexivity.
  - reflexivity.
  - reflexivity.
  - intros Hname Hslug. apply String.eqb_neq in Hname.
    unfold run, save_theme. py_unfold. rewrite Hname. fold slug.
    rewrite Hslug. reflexivity.
  - intros Hname Hslug Hex ->.
    apply String.eqb_neq in Hname. apply String.eqb_neq in Hslug.
    unfold run, save_theme. py_unfold. rewrite Hname. fold slug.
    rewrite Hslug. fold filepath. cbn [gui_fs] in Hex |- *. rewrite Hex.
    reflexivity.
  - intros Hname Hslug Hex ->.
    apply String.eqb_neq in Hname. apply String.eqb_neq in Hslug.
    unfold run, save_theme. py_unfold. rewrite Hname. fold slug.
    rewrite Hslug. fold filepath. cbn [gui_fs] in Hex |- *. rewrite Hex.
    py_red. cbn [gui_fs gui_app].
    destruct (wr_fault fs !! filepath); [eexists; reflexivity |].
    destruct (bool_decide (filepath ∈ dirs fs)); [eexists; reflexivity |].
    py_red. cbn [gui_fs gui_app current_theme_data].
    match goal with |- context [get_available_themes ?X] =>
      destruct (get_available_themes X) as [[[e | l] fs'] t]
    end; eexists; reflexivity.
  - intros Hname Hslug Hgo Hw Hd.
    destruct (save_theme_writes {| gui_fs := fs; gui_app := app |}
                new_name overwrite Hname Hslug Hgo Hw Hd)
      as (Hout & Hfile & Hrd & Hdata).
    fold slug filepath saved run in Hout, Hfile, Hrd, Hdata.
    assert (Hnamed : saved !! "name" = Some (JStr new_name))
      by apply lookup_insert_eq.
    repeat apply conj; try assumption.
    intros Hread Hjson. exists saved. split; [| exact Hnamed].
    apply (load_theme_reads _ slug (json_dump saved) saved Hfile).
    + rewrite Hrd. exact Hread.
    + exact Hjson.
Qed.

(** Saving "My Cool Theme!!" from the editor and loading it back. *)
Lemma save_theme_witness :
  let run := save_theme (Some "My Cool Theme!!") true Sample.gui_state in
  files (gui_fs (final run)) !! "themes/my_cool_theme.json" = Some "My Cool Theme!!" /\
  exists loaded,
    outcome (load_theme "my_cool_theme" (gui_fs (final run))) = inr loaded /\
    loaded !! "name" = Some (JStr "My Cool Theme!!").
Proof.
  intros run.
  destruct (save_theme_contract Sample.gui_state "My Cool Theme!!" true)
    as (_ & _ & _ & _ & _ & _ & _ & _ & Hsave).
  assert (Hfile : "themes/my_cool_theme.json" ∉ dirs Sample.fs).
  { intros Hin. apply (bool_decide_eq_true_2 _) in Hin.
    vm_compute in Hin. discriminate Hin. }
  destruct (Hsave ltac:(discriminate) ltac:(discriminate) (or_intror eq_refl)
              eq_refl Hfile) as (_ & Hstored & _ & _ & Hload).
  split.
  - exact Hstored.
  - apply Hload; reflexivity.
Defined.

(** C5, as stated, fails: for the empty name the derived identifier is
    empty, and the save shows no error at all; it returns after the name
    dialog (and writes nothing). *)
Lemma save_theme_empty_name_counterexample :
  slug_of "" = "" /\
  save_theme (Some "") true Sample.gui_state
  = (inr tt, Sample.gui_state,
     [Dialog (AskString "Save Theme"
        "Enter theme name (will be converted to snake_case filename):" "noir")]) /\
  Dialog (ShowError "Error" "Invalid theme name")
  ∉ trace (save_theme (Some "") true Sample.gui_state).
Proof.
  assert (Hrun : save_theme (Some "") true Sample.gui_state
                 = (inr tt, Sample.gui_state,
                    [Dialog (AskString "Save Theme"
                       "Enter theme name (will be converted to snake_case filename):"
                       "noir")])) by reflexivity.
  repeat apply conj; try reflexivity.
  rewrite Hrun. unfold trace. cbn [snd].
  rewrite elem_of_cons, elem_of_nil. intros [Hin | []]. discriminate Hin.
Qed.

(** * Further properties *)

(** ** Sorting and string lemmas *)

Lemma insert_sorted_perm (x : string) (l : list string) :
  PyStr.insert_sorted x l ≡ₚ x :: l.
Proof.
  induction l as [| y r IH]; [reflexivity |]. cbn.
  destruct (String.leb x y); [reflexivity |].
  rewrite IH. apply perm_swap.
Qed.

Lemma sorted_perm (l : list string) : PyStr.sorted l ≡ₚ l.
Proof.
  induction l as [| x r IH]; [reflexivity |]. cbn.
  now rewrite insert_sorted_perm, IH.
Qed.

Lemma insert_sorted_ordered (x : string) (l : list string) :
  StronglySorted String.le l -> StronglySorted String.le (PyStr.insert_sorted x l).
Proof.
  induction 1 as [| y r Hr IH Hy]; cbn.
  - repeat constructor.
  - destruct (String.leb x y) eqn:Hxy.
    + assert (Hle : String.le x y) by (unfold String.le; now rewrite Hxy).
      constructor; [now constructor |].
      constructor; [exact Hle |].
      eapply Forall_impl; [exact Hy |]. intros z Hz. now transitivity y.
    + constructor; [exact IH |].
      rewrite (insert_sorted_perm x r). constructor; [| exact Hy].
      destruct (total String.le x y) as [Habs | Hyx]; [| exact Hyx].
      unfold String.le in Habs. rewrite Hxy in Habs. destruct Habs.
Qed.

Lemma sorted_ordered (l : list string) : StronglySorted String.le (PyStr.sorted l).
Proof.
  induction l as [| x r IH]; [constructor |]. cbn. now apply insert_sorted_ordered.
Qed.

Lemma append_cons (c : ascii) (r t : string) : String c r ++ t = String c (r ++ t).
Proof. reflexivity. Qed.

Lemma string_length_app (s t : string) :
  String.length (s ++ t) = (String.length s + String.length t)%nat.
Proof. induction s as [| c r IH]; [reflexivity |]. simpl. now f_equal. Qed.

Lemma prefix_app (p t : string) : String.prefix p (p ++ t) = true.
Proof.
  induction p as [| c r IH]; [now destruct t |]. simpl.
  destruct (ascii_dec c c); [exact IH | contradiction].
Qed.

Lemma prefix_inv (p s : string) : String.prefix p s = true -> exists t, s = p ++ t.
Proof.
  revert s. induction p as [| c r IH]; intros s Hp; [now exists s |].
  destruct s as [| d s']; [discriminate |]. simpl in Hp.
  destruct (ascii_dec c d) as [-> | ]; [| discriminate].
  destruct (IH s' Hp) as (t & ->). now exists t.
Qed.

Lemma substring_all (t : string) : String.substring 0 (String.length t) t = t.
Proof. induction t as [| c r IH]; [reflexivity |]. simpl. now f_equal. Qed.

Lemma substring_skip (p t : string) (m : nat) :
  String.substring (String.length p) m (p ++ t) = String.substring 0 m t.
Proof. induction p as [| c r IH]; [reflexivity |]. simpl. exact IH. Qed.

Lemma substring_take (p t : string) :
  String.substring 0 (String.length p) (p ++ t) = p.
Proof.
  induction p as [| c r IH]; [now destruct t |]. simpl. now f_equal.
Qed.

Lemma strip_prefix_app (p t : string) : PyStr.strip_prefix p (p ++ t) = Some t.
Proof.
  unfold PyStr.strip_prefix. rewrite prefix_app, string_length_app.
  replace (String.length p + String.length t - String.length p)%nat
    with (String.length t) by lia.
  now rewrite substring_skip, substring_all.
Qed.

Lemma strip_prefix_inv (p s t : string) :
  PyStr.strip_prefix p s = Some t -> s = p ++ t.
Proof.
  intros H.
  assert (Hp : String.prefix p s = true).
  { unfold PyStr.strip_prefix in H. destruct (String.prefix p s); [reflexivity | discriminate]. }
  destruct (prefix_inv p s Hp) as (u & ->).
  rewrite strip_prefix_app in H. now injection H as ->.
Qed.

Lemma endswith_app (n p : string) : PyStr.endswith p (n ++ p) = true.
Proof.
  unfold PyStr.endswith. rewrite string_length_app.
  replace (String.length n + String.length p - String.length p)%nat
    with (String.length n) by lia.
  rewrite substring_skip, substring_all, String.eqb_refl.
  apply andb_true_iff. split; [apply Nat.leb_le; lia | reflexivity].
Qed.

Lemma drop_last_app (n p : string) : PyStr.drop_last (String.length p) (n ++ p) = n.
Proof.
  unfold PyStr.drop_last. rewrite string_length_app.
  replace (String.length n + String.length p - String.length p)%nat
    with (String.length n) by lia.
  apply substring_take.
Qed.

Lemma substring_split (s : string) (m : nat) :
  (m <= String.length s)%nat ->
  String.substring 0 m s ++ String.substring m (String.length s - m) s = s.
Proof.
  revert m. induction s as [| c r IH]; intros [| m] Hm.
  - reflexivity.
  - simpl in Hm. lia.
  - rewrite Nat.sub_0_r, substring_all. reflexivity.
  - simpl in *. rewrite append_cons. f_equal. apply IH. lia.
Qed.

Lemma endswith_inv (p f : string) :
  PyStr.endswith p f = true -> PyStr.drop_last (String.length p) f ++ p = f.
Proof.
  unfold PyStr.endswith, PyStr.drop_last. intros H.
  apply andb_true_iff in H. destruct H as [Hlen Heq].
  apply Nat.leb_le in Hlen. apply String.eqb_eq in Heq.
  pose proof (substring_split f (String.length f - String.length p) ltac:(lia)) as Hs.
  replace (String.length f - (String.length f - String.length p))%nat
    with (String.length p) in Hs by lia.
  now rewrite Heq in Hs.
Qed.

Lemma child_of_spec (d p n : string) :
  child_of d p = Some n <->
  p = d ++ "/" ++ n /\ n <> "" /\ PyStr.contains_char "/" n = false.
Proof.
  unfold child_of. split.
  - destruct (PyStr.strip_prefix (d ++ "/") p) as [t |] eqn:Hs; [| discriminate].
    apply strip_prefix_inv in Hs.
    destruct (String.eqb t "") eqn:Ht; [discriminate |].
    destruct (PyStr.contains_char "/" t) eqn:Hc; [discriminate |].
    intros [= ->]. apply String.eqb_neq in Ht.
    repeat split; try assumption. rewrite Hs. 
    clear. induction d as [| c r IH]; [reflexivity |]. rewrite !append_cons. now f_equal.
  - intros (-> & Hn & Hc).
    replace (d ++ "/" ++ n) with ((d ++ "/") ++ n).
    2:{ clear. induction d as [| c r IH]; [reflexivity |]. rewrite !append_cons. now f_equal. }
    rewrite strip_prefix_app. apply String.eqb_neq in Hn. now rewrite Hn, Hc.
Qed.

Lemma entries_spec (fs : Fs) (d n : string) :
  n ∈ entries fs d <->
  (path_exists fs (d ++ "/" ++ n) = true \/ (d ++ "/" ++ n) ∈ broken_links fs) /\
  n <> "" /\ PyStr.contains_char "/" n = false.
Proof.
  unfold entries. rewrite list_elem_of_omap.
  assert (Hin : forall p, p ∈ dom (files fs) ∪ dirs fs ∪ broken_links fs <->
                          path_exists fs p = true \/ p ∈ broken_links fs).
  { intros p. unfold path_exists.
    rewrite !elem_of_union, orb_true_iff, !bool_decide_eq_true, elem_of_dom.
    tauto. }
  split.
  - intros (p & Hp & Hc). apply child_of_spec in Hc. destruct Hc as (-> & Hn & Hs).
    repeat split; try assumption. now apply Hin, elem_of_elements.
  - intros (Hp & Hn & Hs). exists (d ++ "/" ++ n). split.
    + now apply elem_of_elements, Hin.
    + now apply child_of_spec.
Qed.

Lemma NoDup_omap_inj {A B} (f : A -> option B) (l : list A) :
  (forall x y z, f x = Some z -> f y = Some z -> x = y) ->
  NoDup l -> NoDup (omap f l).
Proof.
  intros Hinj. induction 1 as [| x l Hx Hl IH]; [constructor |]. cbn.
  destruct (f x) as [z |] eqn:Hfx; [| exact IH].
  constructor; [| exact IH].
  rewrite list_elem_of_omap. intros (y & Hy & Hfy).
  now rewrite (Hinj _ _ _ Hfx Hfy) in Hx.
Qed.

Lemma entries_NoDup (fs : Fs) (d : string) : NoDup (entries fs d).
Proof.
  unfold entries. apply NoDup_omap_inj; [| apply NoDup_elements].
  intros x y z Hx Hy. apply child_of_spec in Hx, Hy.
  destruct Hx as (-> & _), Hy as (-> & _). reflexivity.
Qed.

Lemma theme_files_names (fs : Fs) :
  map (fun n => n ++ ".json") (listed_themes fs) = theme_files fs.
Proof.
  unfold listed_themes, theme_files. rewrite map_map.
  induction (PyStr.sorted (entries fs THEMES_DIR)) as [| f l IH]; [reflexivity |].
  cbn [List.filter]. destruct (PyStr.endswith ".json" f) eqn:Hf; [| exact IH].
  cbn [map]. rewrite IH. f_equal. exact (endswith_inv ".json" f Hf).
Qed.

Lemma theme_files_spec (fs : Fs) (f : string) :
  f ∈ theme_files fs <-> PyStr.endswith ".json" f = true /\ f ∈ entries fs THEMES_DIR.
Proof.
  unfold theme_files. rewrite list_elem_of_In, filter_In, <- list_elem_of_In.
  rewrite (sorted_perm (entries fs THEMES_DIR)). tauto.
Qed.

Lemma listed_themes_spec (fs : Fs) (n : string) :
  n ∈ listed_themes fs <-> (n ++ ".json") ∈ entries fs THEMES_DIR.
Proof.
  split.
  - intros Hn. apply (list_elem_of_fmap_2 (fun n => n ++ ".json")) in Hn.
    change (n ++ ".json" ∈ map (fun n => n ++ ".json") (listed_themes fs)) in Hn.
    rewrite theme_files_names in Hn. now apply theme_files_spec in Hn.
  - intros Hf. unfold listed_themes.
    assert (Hin : (n ++ ".json") ∈ theme_files fs).
    { apply theme_files_spec. split; [apply endswith_app | exact Hf]. }
    apply (list_elem_of_fmap_2 (PyStr.drop_last 5)) in Hin.
    pose proof (drop_last_app n ".json") as Hd.
    change (String.length ".json") with 5%nat in Hd.
    now rewrite Hd in Hin.
Qed.

Lemma get_available_themes_listing (fs : Fs) :
  THEMES_DIR ∈ dirs fs ->
  get_available_themes fs = (inr (listed_themes fs), fs, []).
Proof.
  intros Hd. unfold get_available_themes. py_unfold.
  assert (Hex : path_exists fs THEMES_DIR = true).
  { unfold path_exists. rewrite (bool_decide_eq_true_2 _ Hd). apply orb_true_r. }
  rewrite Hex. py_red. rewrite (bool_decide_eq_true_2 _ Hd). reflexivity.
Qed.

(** ** The theme listing *)

Lemma sorted_canonical (l l' : list string) :
  l ≡ₚ l' -> PyStr.sorted l = PyStr.sorted l'.
Proof.
  intros Hp. apply (StronglySorted_unique String.le); try apply sorted_ordered.
  now rewrite !sorted_perm.
Qed.

Lemma filter_ordered (f : string -> bool) (l : list string) :
  StronglySorted String.le l -> StronglySorted String.le (List.filter f l).
Proof.
  induction 1 as [| x l Hl IH Hx]; [constructor |]. cbn [List.filter].
  destruct (f x); [| exact IH]. constructor; [exact IH |].
  rewrite Forall_forall in Hx |- *. intros y Hy.
  apply Hx. apply list_elem_of_In in Hy. apply filter_In in Hy.
  apply list_elem_of_In. tauto.
Qed.

Lemma theme_files_NoDup (fs : Fs) : NoDup (theme_files fs).
Proof.
  unfold theme_files. apply NoDup_ListNoDup, List.NoDup_filter, NoDup_ListNoDup.
  rewrite (sorted_perm (entries fs THEMES_DIR)). apply entries_NoDup.
Qed.

Lemma listed_themes_NoDup (fs : Fs) : NoDup (listed_themes fs).
Proof.
  apply (NoDup_fmap_1 (fun n => n ++ ".json")).
  change (NoDup (map (fun n => n ++ ".json") (listed_themes fs))).
  rewrite theme_files_names. apply theme_files_NoDup.
Qed.

(** X1. When the themes directory is there, [get_available_themes]
    returns without touching the file system or printing; the file names
    behind the returned names are in ascending order, no name is returned
    twice, and the result is the same whatever order the directory is
    listed in. *)
Theorem available_themes_sorted (fs : Fs) :
  THEMES_DIR ∈ dirs fs ->
  exists names,
    get_available_themes fs = (inr names, fs, []) /\
    StronglySorted String.le (map (fun n => n ++ ".json") names) /\
    NoDup names /\
    (forall listing, listing ≡ₚ entries fs THEMES_DIR ->
       map (PyStr.drop_last 5)
           (List.filter (PyStr.endswith ".json") (PyStr.sorted listing)) = names).
Proof.
  intros Hd. exists (listed_themes fs). repeat apply conj.
  - now apply get_available_themes_listing.
  - rewrite theme_files_names. apply filter_ordered, sorted_ordered.
  - apply listed_themes_NoDup.
  - intros listing Hp. now rewrite (sorted_canonical _ _ Hp).
Qed.

(** The themes directory of the demo, which is there. *)
Lemma available_themes_sorted_witness :
  exists names,
    get_available_themes Demo.fs = (inr names, Demo.fs, []) /\
    StronglySorted String.le (map (fun n => n ++ ".json") names) /\
    NoDup names /\
    (forall listing, listing ≡ₚ entries Demo.fs THEMES_DIR ->
       map (PyStr.drop_last 5)
           (List.filter (PyStr.endswith ".json") (PyStr.sorted listing)) = names).
Proof.
  apply available_themes_sorted.
  apply (bool_decide_eq_true_1 (THEMES_DIR ∈ dirs Demo.fs)). vm_compute. reflexivity.
Defined.

Lemma themes_path (n : string) :
  PyStr.contains_char "/" n = false ->
  path_join THEMES_DIR (n ++ ".json") = THEMES_DIR ++ "/" ++ n ++ ".json".
Proof.
  intros Hn. unfold path_join.
  assert (Hs : PyStr.startswith "/" (n ++ ".json") = false).
  { destruct n as [| c r]; [reflexivity |]. rewrite append_cons.
    unfold PyStr.startswith. cbn [String.prefix].
    destruct (ascii_dec "/" c) as [<- | Hne]; [| reflexivity].
    cbn in Hn. discriminate Hn. }
  rewrite Hs. reflexivity.
Qed.

(** X2. When the themes directory is there, a name is among the
    available themes exactly when [<name>.json] is an entry of that
    directory, that is when [themes/<name>.json] exists (as a file or as a
    directory) or is a broken link, and the name holds no path separator:
    files in sub-directories are not listed, and a listed name need not
    have a file that can be opened. *)
Theorem available_themes_membership (fs fs1 : Fs) (names : list string)
    (t : list Event) (n : string) :
  THEMES_DIR ∈ dirs fs ->
  get_available_themes fs = (inr names, fs1, t) ->
  (n ∈ names <->
   (path_exists fs (THEMES_DIR ++ "/" ++ n ++ ".json") = true \/
    (THEMES_DIR ++ "/" ++ n ++ ".json") ∈ broken_links fs) /\
   PyStr.contains_char "/" n = false) /\
  (n ∈ names <-> (n ++ ".json") ∈ entries fs THEMES_DIR).
Proof.
  intros Hd Hrun. rewrite (get_available_themes_listing fs Hd) in Hrun.
  injection Hrun as <- _ _.
  split; [| apply listed_themes_spec].
  rewrite listed_themes_spec, entries_spec, contains_char_app.
  split.
  - intros (Hp & _ & Hc). apply orb_false_iff in Hc. tauto.
  - intros (Hp & Hc). repeat split; [exact Hp | | now rewrite Hc].
    destruct n; discriminate.
Qed.

(** A broken link [ghost.json] in the themes directory is listed as theme
    [ghost], though [themes/ghost.json] does not exist. *)
Lemma available_themes_membership_witness :
  ("ghost" ∈ ["ghost"; "noir"] <->
   (path_exists Demo.linked_fs (THEMES_DIR ++ "/" ++ "ghost" ++ ".json") = true \/
    (THEMES_DIR ++ "/" ++ "ghost" ++ ".json") ∈ broken_links Demo.linked_fs) /\
   PyStr.contains_char "/" "ghost" = false) /\
  path_exists Demo.linked_fs "themes/ghost.json" = false.
Proof.
  split; [| reflexivity].
  apply (available_themes_membership Demo.linked_fs Demo.linked_fs
           ["ghost"; "noir"] [] "ghost").
  - apply (bool_decide_eq_true_1 (THEMES_DIR ∈ dirs Demo.linked_fs)).
    vm_compute. reflexivity.
  - vm_compute. reflexivity.
Defined.

(** ** Theme validation on the command line *)

Lemma get_available_themes_fresh (fs : Fs) :
  path_exists fs THEMES_DIR = false ->
  get_available_themes fs
  = match mk_fault fs !! THEMES_DIR with
    | Some e => (inl e, fs, [])
    | None => (inr [], set_dirs ({[THEMES_DIR]} ∪ dirs fs) fs, [])
    end.
Proof.
  intros Hdir. unfold get_available_themes. py_unfold. rewrite Hdir. py_red.
  destruct (mk_fault fs !! THEMES_DIR); [reflexivity |]. now rewrite Hdir.
Qed.

(** X3. A poster request (city and country given) made where no
    themes directory exists never reaches the generation: the directory is
    created, the theme is reported as not found with an empty list of
    available themes, and the status is 1, whatever the theme, the default
    one included; when the directory cannot be created the error is raised
    with nothing printed. *)
Theorem main_without_themes_directory `{Json} (start_gui : Py Fs unit)
    (generate : Args -> Py Fs Z) (argc : nat) (args : Args) (fs : Fs) :
  gui args = false -> argc <> 1%nat -> list_themes_flag args = false ->
  absent (city args) = false -> absent (country args) = false ->
  path_exists fs THEMES_DIR = false ->
  (mk_fault fs !! THEMES_DIR = None ->
     main start_gui generate argc args fs
     = (inr 1, set_dirs ({[THEMES_DIR]} ∪ dirs fs) fs,
        [Print (MErrThemeNotFound (theme args)); Print (MAvailableThemes "")])) /\
  (forall e, mk_fault fs !! THEMES_DIR = Some e ->
     main start_gui generate argc args fs = (inl e, fs, [])).
Proof.
  intros Hgui Hargc Hlist Hcity Hcountry Hdir. apply Nat.eqb_neq in Hargc.
  pose proof (get_available_themes_fresh fs Hdir) as Hav.
  split.
  - intros Hmk. rewrite Hmk in Hav.
    unfold main. rewrite Hgui, Hargc, Hlist, Hcity, Hcountry.
    cbv [mbind Py_bind py_bind orb]. rewrite Hav. reflexivity.
  - intros e Hmk. rewrite Hmk in Hav.
    unfold main. rewrite Hgui, Hargc, Hlist, Hcity, Hcountry.
    cbv [mbind Py_bind py_bind orb]. rewrite Hav. reflexivity.
Qed.

(** The default request in an empty working directory, and in one where nothing can be created. *)
Lemma main_without_themes_directory_witness :
  main Sample.session Sample.generate 5 Demo.paris_default Sample.empty_fs
  = (inr 1, set_dirs ({[THEMES_DIR]} ∪ ∅) Sample.empty_fs,
     [Print (MErrThemeNotFound "feature_based"); Print (MAvailableThemes "")]) /\
  main Sample.session Sample.generate 5 Demo.paris_default Demo.locked_fs
  = (inl (Exn "PermissionError" "Permission denied"), Demo.locked_fs, []).
Proof.
  split.
  - apply (main_without_themes_directory Sample.session Sample.generate 5
             Demo.paris_default Sample.empty_fs); try reflexivity. discriminate.
  - apply (main_without_themes_directory Sample.session Sample.generate 5
             Demo.paris_default Demo.locked_fs); try reflexivity. discriminate.
Defined.

(** X4. With the themes directory in place, a poster request goes
    on to the generation exactly when its theme is listed, and otherwise
    ends with the two diagnostics, status 1 and the file system as it
    was. For a listed theme the file [load_theme] will look for is
    [themes/<theme>.json], an entry of the themes directory: when it
    exists the built-in fallback is not taken, and a theme it returns was
    parsed from that file; when the entry is a broken link the theme has
    passed the validation all the same, and [load_theme] warns and
    returns the built-in theme. *)
Theorem main_validates_theme `{Json} (start_gui : Py Fs unit)
    (generate : Args -> Py Fs Z) (argc : nat) (args : Args) (fs : Fs) :
  let theme_file := path_join THEMES_DIR (theme args ++ ".json") in
  gui args = false -> argc <> 1%nat -> list_themes_flag args = false ->
  absent (city args) = false -> absent (country args) = false ->
  THEMES_DIR ∈ dirs fs ->
  (theme args ∈ listed_themes fs ->
     main start_gui generate argc args fs = generate args fs /\
     theme_file = THEMES_DIR ++ "/" ++ theme args ++ ".json" /\
     (path_exists fs theme_file = true \/ theme_file ∈ broken_links fs) /\
     (path_exists fs theme_file = true ->
        forall e, Print (MThemeNotFound e) ∉ trace (load_theme (theme args) fs)) /\
     (path_exists fs theme_file = false ->
        load_theme (theme args) fs
        = (inr default_theme, fs, [Print (MThemeNotFound theme_file)]))) /\
  (theme args ∉ listed_themes fs ->
     main start_gui generate argc args fs
     = (inr 1, fs,
        [Print (MErrThemeNotFound (theme args));
         Print (MAvailableThemes (PyStr.join ", " (listed_themes fs)))])).
Proof.
  intros theme_file Hgui Hargc Hlist Hcity Hcountry Hd. apply Nat.eqb_neq in Hargc.
  pose proof (get_available_themes_listing fs Hd) as Hav.
  split.
  - intros Hin.
    assert (Hentry : (path_exists fs (THEMES_DIR ++ "/" ++ theme args ++ ".json") = true \/
                      (THEMES_DIR ++ "/" ++ theme args ++ ".json") ∈ broken_links fs) /\
                     PyStr.contains_char "/" (theme args) = false).
    { apply listed_themes_spec, entries_spec in Hin. destruct Hin as (Hp & _ & Hc).
      rewrite contains_char_app in Hc. apply orb_false_iff in Hc. tauto. }
    destruct Hentry as (Hp & Hc).
    assert (Hpath : theme_file = THEMES_DIR ++ "/" ++ theme args ++ ".json")
      by now apply themes_path.
    repeat apply conj.
    + apply mem_elem_of in Hin.
      unfold main. rewrite Hgui, Hargc, Hlist, Hcity, Hcountry.
      cbv [mbind Py_bind py_bind orb]. rewrite Hav. py_red. rewrite Hin. py_red.
      destruct (generate args fs) as [[r s] t]. reflexivity.
    + exact Hpath.
    + now rewrite Hpath.
    + intros Hex e. unfold load_theme. fold theme_file. py_unfold.
      rewrite Hex. py_red.
      destruct (rd_fault fs !! theme_file);
        [cbn; rewrite elem_of_nil; tauto |].
      destruct (files fs !! theme_file); py_red;
        [| cbn; rewrite elem_of_nil; tauto].
      destruct (json_load _) as [err | [theme | repr]]; py_red;
        try (cbn; rewrite elem_of_nil; tauto).
      destruct (theme !! "description"); cbn;
        rewrite !elem_of_cons, elem_of_nil; intuition discriminate.
    + intros Hmiss. unfold load_theme. fold theme_file. py_unfold.
      now rewrite Hmiss.
  - intros Hout. apply mem_not_elem_of in Hout.
    unfold main. rewrite Hgui, Hargc, Hlist, Hcity, Hcountry.
    cbv [mbind Py_bind py_bind orb]. rewrite Hav. py_red. rewrite Hout. reflexivity.
Qed.

(** A request for [noir], which is listed and has its file; one for
    [ghost], which is listed through a broken link; and the default
    request, whose theme is not listed. *)
Lemma main_validates_theme_witness :
  main Sample.session Sample.generate 7 Demo.paris_noir Demo.linked_fs
  = Sample.generate Demo.paris_noir Demo.linked_fs /\
  path_exists Demo.linked_fs "themes/noir.json" = true /\
  main Sample.session Sample.generate 7 Demo.paris_ghost Demo.linked_fs
  = Sample.generate Demo.paris_ghost Demo.linked_fs /\
  load_theme "ghost" Demo.linked_fs
  = (inr default_theme, Demo.linked_fs, [Print (MThemeNotFound "themes/ghost.json")]) /\
  main Sample.session Sample.generate 5 Demo.paris_default Demo.linked_fs
  = (inr 1, Demo.linked_fs,
     [Print (MErrThemeNotFound "feature_based");
      Print (MAvailableThemes "ghost, noir")]).
Proof.
  assert (Hd : THEMES_DIR ∈ dirs Demo.linked_fs).
  { apply (bool_decide_eq_true_1 (THEMES_DIR ∈ dirs Demo.linked_fs)).
    vm_compute. reflexivity. }
  assert (Hnoir : "noir" ∈ listed_themes Demo.linked_fs).
  { apply mem_elem_of. vm_compute. reflexivity. }
  assert (Hghost : "ghost" ∈ listed_themes Demo.linked_fs).
  { apply mem_elem_of. vm_compute. reflexivity. }
  assert (Hout : "feature_based" ∉ listed_themes Demo.linked_fs).
  { intros Hx. apply mem_elem_of in Hx. vm_compute in Hx. discriminate Hx. }
  destruct (main_validates_theme Sample.session Sample.generate 7 Demo.paris_noir
              Demo.linked_fs eq_refl ltac:(discriminate) eq_refl eq_refl eq_refl Hd)
    as (Hyes & _).
  destruct (main_validates_theme Sample.session Sample.generate 7 Demo.paris_ghost
              Demo.linked_fs eq_refl ltac:(discriminate) eq_refl eq_refl eq_refl Hd)
    as (Hlink & _).
  destruct (main_validates_theme Sample.session Sample.generate 5 Demo.paris_default
              Demo.linked_fs eq_refl ltac:(discriminate) eq_refl eq_refl eq_refl Hd)
    as (_ & Hno).
  destruct (Hyes Hnoir) as (Hrun & _ & _ & _ & _).
  destruct (Hlink Hghost) as (Hrun' & _ & _ & _ & Hfallback).
  repeat apply conj.
  - exact Hrun.
  - reflexivity.
  - exact Hrun'.
  - apply Hfallback. reflexivity.
  - exact (Hno Hout).
Defined.

(** X5. [load_theme] leaves the file system as it was. When the
    theme file exists, a theme it returns was parsed from that file; a
    file that cannot be read or does not parse, and a directory of that
    name, make it raise with nothing printed: the built-in theme is
    returned for a missing file only. *)
Theorem load_theme_reads_only `{Json} (fs : Fs) (theme_name : string) :
  let theme_file := path_join THEMES_DIR (theme_name ++ ".json") in
  let run := load_theme theme_name fs in
  final run = fs /\
  (forall theme,
     path_exists fs theme_file = true ->
     outcome run = inr theme ->
     exists content,
       files fs !! theme_file = Some content /\
       rd_fault fs !! theme_file = None /\
       json_load content = inr (JObject theme)) /\
  (forall e, rd_fault fs !! theme_file = Some e ->
     path_exists fs theme_file = true -> run = (inl e, fs, [])) /\
  (forall content e,
     files fs !! theme_file = Some content ->
     rd_fault fs !! theme_file = None ->
     json_load content = inl e -> run = (inl e, fs, [])) /\
  (theme_file ∈ dirs fs -> files fs !! theme_file = None ->
     exists e, run = (inl e, fs, [])).
Proof.
  intros theme_file run. subst run. unfold load_theme. fold theme_file. py_unfold.
  repeat apply conj.
  - destruct (path_exists fs theme_file); py_red; [| reflexivity].
    destruct (rd_fault fs !! theme_file); [reflexivity |].
    destruct (files fs !! theme_file); py_red; [| reflexivity].
    destruct (json_load _) as [e | [theme | repr]]; py_red; try reflexivity.
    destruct (theme !! "description"); reflexivity.
  - intros theme Hex. rewrite Hex. py_red.
    destruct (rd_fault fs !! theme_file); [discriminate |].
    destruct (files fs !! theme_file) as [content |]; py_red; [| discriminate].
    destruct (json_load content) as [e | [theme' | repr]] eqn:Hj; py_red;
      try discriminate.
    destruct (theme' !! "description"); cbn; intros [= ->]; now exists content.
  - intros e Hr Hex. rewrite Hex. py_red. now rewrite Hr.
  - intros content e Hf Hr Hj. rewrite (file_exists _ _ _ Hf). py_red.
    rewrite Hr, Hf. py_red. now rewrite Hj.
  - intros Hd Hf.
    assert (Hex : path_exists fs theme_file = true).
    { unfold path_exists. rewrite (bool_decide_eq_true_2 _ Hd). apply orb_true_r. }
    rewrite Hex. py_red. rewrite Hf.
    destruct (rd_fault fs !! theme_file); now eexists.
Qed.

(** X6. With the themes directory in place, [list_themes] never
    raises and leaves the file system as it was; it prints the notice for
    an empty list, and otherwise the header and then one entry per
    available theme, in the order of [get_available_themes]; the entry of a
    theme whose file cannot be read or parsed shows the theme name itself
    and no description. *)
Theorem list_themes_prints_every_theme `{Json} (fs : Fs) :
  THEMES_DIR ∈ dirs fs ->
  list_themes fs
  = (inr tt, fs,
     match listed_themes fs with
     | [] => [Print MNoThemes]
     | names =>
         Print MThemesHeader :: concat (map (fun n => trace (theme_entry n fs)) names)
     end) /\
  (forall n, exists display description,
     theme_entry n fs = (inr tt, fs, [Print (MThemeEntry n display description)]) /\
     ((display = n /\ description = "") \/
      exists content theme_data,
        files fs !! path_join THEMES_DIR (n ++ ".json") = Some content /\
        json_load content = inr (JObject theme_data) /\
        display = jval_str (dict_get theme_data "name" (JStr n)))).
Proof.
  intros Hd. split; [| intros n; apply theme_entry_line].
  unfold list_themes. cbv [mbind Py_bind py_bind].
  rewrite (get_available_themes_listing fs Hd). py_red.
  destruct (listed_themes fs) as [| a rest]; [reflexivity |].
  cbv [print emit emit_in]. py_red.
  pose proof (theme_entries_run (a :: rest) fs) as Hrun.
  cbv [mbind Py_bind py_bind] in Hrun. rewrite Hrun. reflexivity.
Qed.

(** The demo directory: an empty file and a directory are listed under their own names. *)
Lemma list_themes_prints_every_theme_witness :
  list_themes Demo.fs
  = (inr tt, Demo.fs,
     [Print MThemesHeader; Print (MThemeEntry "a-b" "Dash" "");
      Print (MThemeEntry "a" "a" ""); Print (MThemeEntry "dir" "dir" "");
      Print (MThemeEntry "noir" "Noir" "")]).
Proof.
  assert (Hd : THEMES_DIR ∈ dirs Demo.fs).
  { apply (bool_decide_eq_true_1 (THEMES_DIR ∈ dirs Demo.fs)). vm_compute. reflexivity. }
  destruct (list_themes_prints_every_theme Demo.fs Hd) as (Hrun & _).
  rewrite Hrun. vm_compute. reflexivity.
Defined.

(** ** Missing color roles *)

(** X7. The color loop raises exactly when some edge needs a color
    role the theme does not define, and then the error is the [KeyError]
    of the first such edge; the edges before it do not matter, and a theme
    that lacks a role still colors every graph that does not use it. *)
Theorem edge_colors_key_error (THEME : Theme) (G : Graph) (err : exn) :
  get_edge_colors_by_type THEME G = inl err <->
  exists before e after,
    G = (before ++ e :: after)%list /\
    Forall (fun e' => is_Some (THEME !! color_key (highway_of (edge_data e')))) before /\
    THEME !! color_key (highway_of (edge_data e)) = None /\
    err = Exn "KeyError" (color_key (highway_of (edge_data e))).
Proof.
  induction G as [| e0 rest IH].
  - split; [discriminate |]. intros (before & e & after & HG & _).
    destruct before; discriminate HG.
  - cbn [get_edge_colors_by_type]. unfold theme_item.
    destruct (THEME !! color_key (highway_of (edge_data e0))) as [c |] eqn:Hc.
    + split.
      * destruct (get_edge_colors_by_type THEME rest) as [err' | cs]; [| discriminate].
        intros [= ->]. destruct (proj1 IH eq_refl) as (before & e & after & -> & Hb & He & Herr).
        exists (e0 :: before), e, after. repeat split; try assumption.
        constructor; [now rewrite Hc | exact Hb].
      * intros (before & e & after & HG & Hb & He & Herr).
        destruct before as [| b before]; cbn in HG; injection HG as -> ->.
        -- congruence.
        -- apply Forall_cons in Hb. destruct Hb as [_ Hb].
           assert (Hrest : get_edge_colors_by_type THEME (before ++ e :: after)%list = inl err).
           { apply IH. now exists before, e, after. }
           now rewrite Hrest.
    + split.
      * intros [= <-]. exists [], e0, rest. repeat split; [constructor | exact Hc].
      * intros (before & e & after & HG & Hb & He & Herr).
        destruct before as [| b before]; cbn in HG; injection HG as -> ->.
        -- now subst err.
        -- apply Forall_cons in Hb. destruct Hb as [[c Hb] _]. congruence.
Qed.

(** The built-in theme without its default role, on a graph whose third edge is a track. *)
Lemma edge_colors_key_error_witness :
  get_edge_colors_by_type Demo.partial_theme Sample.graph
  = inl (Exn "KeyError" "road_default").
Proof.
  apply edge_colors_key_error.
  exists [Sample.motorway_edge; Sample.lane_edge], Sample.track_edge, [Sample.bare_edge].
  repeat split.
  repeat constructor; eexists; vm_compute; reflexivity.
Defined.

(** ** Cache keys *)

Lemma app_assoc_string (a b c : string) : (a ++ b) ++ c = a ++ b ++ c.
Proof.
  induction a as [| x r IH]; [reflexivity |]. rewrite !append_cons. now f_equal.
Qed.

Lemma cache_path_collision (a b c : string) (dist : Z) :
  cache_path_of (a ++ " " ++ b) c dist = cache_path_of a (b ++ " " ++ c) dist.
Proof.
  unfold cache_path_of. f_equal.
  rewrite !lower_app, !replace_app. change (PyStr.lower " ") with " ".
  change (PyStr.replace " " "_" " ") with "_".
  now rewrite !app_assoc_string.
Qed.

(** ** Every run of [get_map_data] *)


Lemma save_to_cache_no_fetch `{Pickle} (cache_path : string) (data : PyValue) (fs : Fs) :
  fetches (trace (save_to_cache cache_path data fs)) = 0%nat.
Proof.
  unfold save_to_cache. py_unfold.
  destruct (wr_fault fs !! cache_path); [reflexivity |].
  destruct (bool_decide (cache_path ∈ dirs fs)); [reflexivity |]. py_red.
  destruct (pickle_dump data) as [[e written] | bytes]; reflexivity.
Qed.

Lemma get_map_data_blocked `{Pickle} (net : Net) (city country : string)
    (point : Q * Q) (dist : Z) (fs : Fs) (e : exn) :
  path_exists fs CACHE_DIR = false ->
  mk_fault fs !! CACHE_DIR = Some e ->
  get_map_data net city country point dist fs = (inl e, fs, []).
Proof.
  intros Hdir Hmk. unfold get_map_data. py_unfold. rewrite Hdir. py_red.
  now rewrite Hmk.
Qed.

Lemma cache_dir_cases (fs : Fs) :
  cache_dir_ready fs \/
  exists e, path_exists fs CACHE_DIR = false /\ mk_fault fs !! CACHE_DIR = Some e.
Proof.
  unfold cache_dir_ready.
  destruct (path_exists fs CACHE_DIR); [now left; left |].
  destruct (mk_fault fs !! CACHE_DIR) as [e |]; [right; now exists e | now left; right].
Qed.

(** The ways a call can end. *)
Lemma get_map_data_cases `{Pickle} (net : Net) (city country : string)
    (point : Q * Q) (dist : Z) (fs : Fs) :
  (exists e, path_exists fs CACHE_DIR = false /\ mk_fault fs !! CACHE_DIR = Some e /\
             get_map_data net city country point dist fs = (inl e, fs, [])) \/
  (exists data t,
     get_map_data net city country point dist fs = (inr data, with_cache_dir fs, t) /\
     fetches t = 0%nat) \/
  (exists e t, graph_from_point net point dist = inl e /\
     get_map_data net city country point dist fs = (inl e, with_cache_dir fs, t) /\
     fetches t = 1%nat) \/
  (exists data t,
     get_map_data net city country point dist fs
     = (inr data,
        final (save_to_cache (cache_path_of city country dist) data (with_cache_dir fs)),
        t) /\
     fetches t = 3%nat).
Proof.
  destruct (cache_dir_cases fs) as [Hready | (e & Hdir & Hmk)].
  2:{ left. exists e. repeat split; try assumption.
      now apply get_map_data_blocked. }
  right.
  destruct (check_cache_total (cache_path_of city country dist) (with_cache_dir fs))
    as (cached & t & Hcc & Ht).
  destruct cached as [data |].
  - left. exists data, t. split; [| exact Ht].
    rewrite (get_map_data_ready net city country point dist fs Hready).
    cbv [mbind mret Py_bind Py_ret py_bind py_ret].
    rewrite Hcc. py_red. now rewrite app_nil_r.
  - right.
    assert (Hmiss : outcome (check_cache (cache_path_of city country dist)
                               (with_cache_dir fs)) = inr None)
      by now rewrite Hcc.
    destruct (graph_from_point net point dist) as [e | G] eqn:HG.
    + left. eexists e, _. split; [reflexivity |].
      rewrite (get_map_data_falls_through net city country point dist fs Hready t Hcc).
      unfold download_and_store. cbv [mbind Py_bind py_bind].
      rewrite (download_fails net point dist e _ HG).
      split; [reflexivity |]. rewrite fetches_app, Ht. reflexivity.
    + right. eexists _, _.
      rewrite (get_map_data_fresh net city country point dist fs Hready G Hmiss HG).
      split; [reflexivity |].
      rewrite !fetches_app, Hcc. cbn [trace snd]. rewrite Ht.
      rewrite save_to_cache_no_fetch. reflexivity.
Qed.

(** X8. The cache key does not keep city and country apart: a city
    ["a b"] in country ["c"] and a city ["a"] in country ["b c"] share one
    cache file, so a request for the second answers with the data cached
    for the first, from any point and with no fetch. *)
Theorem cache_shared_by_colliding_names `{Pickle} (net : Net) (a b c : string)
    (point : Q * Q) (dist : Z) (fs : Fs) (content : string) (data : PyValue) :
  let cache_path := cache_path_of (a ++ " " ++ b) c dist in
  cache_dir_ready fs ->
  files fs !! cache_path = Some content ->
  rd_fault fs !! cache_path = None ->
  pickle_load content = inr data ->
  cache_path_of a (b ++ " " ++ c) dist = cache_path /\
  get_map_data net a (b ++ " " ++ c) point dist fs
  = (inr data, with_cache_dir fs,
     [Print (MFoundCached cache_path); Print MLoadingFromCache;
      Print MLoadedFromCache]).
Proof.
  intros cache_path Hready Hfile Hread Hload.
  assert (Hsame : cache_path_of a (b ++ " " ++ c) dist = cache_path)
    by (symmetry; apply cache_path_collision).
  split; [exact Hsame |]. rewrite <- Hsame in Hfile, Hread |- *.
  apply (get_map_data_hit net a (b ++ " " ++ c) point dist fs Hready content data);
    assumption.
Qed.

(** The cache entry of San Jose, Costa Rica, answers a request for San in Jose Costa Rica, offline. *)
Lemma cache_shared_by_colliding_names_witness :
  cache_path_of "San" ("Jose" ++ " " ++ "Costa Rica") 5000
  = cache_path_of ("San" ++ " " ++ "Jose") "Costa Rica" 5000 /\
  get_map_data Sample.offline "San" ("Jose" ++ " " ++ "Costa Rica") Sample.paris 5000
    Demo.cached_fs
  = (inr Sample.triple, with_cache_dir Demo.cached_fs,
     [Print (MFoundCached (cache_path_of ("San" ++ " " ++ "Jose") "Costa Rica" 5000));
      Print MLoadingFromCache; Print MLoadedFromCache]).
Proof.
  apply (cache_shared_by_colliding_names Sample.offline "San" "Jose" "Costa Rica"
           Sample.paris 5000 Demo.cached_fs "pickled-triple" Sample.triple).
  - left. vm_compute. reflexivity.
  - vm_compute. reflexivity.
  - vm_compute. reflexivity.
  - reflexivity.
Defined.




(** X11. A call of [get_map_data] that returns has made no fetch
    (the cache answered) or exactly three; a call that raises has made
    none or exactly one. *)
Theorem get_map_data_fetch_count `{Pickle} (net : Net)
    (city country : string) (point : Q * Q) (dist : Z) (fs : Fs) :
  let run := get_map_data net city country point dist fs in
  match outcome run with
  | inr _ => fetches (trace run) = 0%nat \/ fetches (trace run) = 3%nat
  | inl _ => fetches (trace run) = 0%nat \/ fetches (trace run) = 1%nat
  end.
Proof.
  intros run. subst run.
  destruct (get_map_data_cases net city country point dist fs)
    as [(e' & Hdir & Hmk & Hrun) | [(data & t & Hrun & Ht) |
        [(e' & t & HG & Hrun & Ht) | (data & t & Hrun & Ht)]]];
    rewrite Hrun; cbn [outcome trace fst snd]; auto.
Qed.

(** ** The identifier of a saved theme *)

Lemma filter_chars_drops (keep : ascii -> bool) (a : ascii) (s : string) :
  keep a = false -> PyStr.contains_char a (PyStr.filter_chars keep s) = false.
Proof.
  intros Ha. induction s as [| c r IH]; [reflexivity |]. cbn [PyStr.filter_chars].
  destruct (keep c) eqn:Hc; [| exact IH]. cbn [PyStr.contains_char]. rewrite IH.
  destruct (Ascii.eqb_spec c a) as [-> | _]; [congruence | reflexivity].
Qed.

Lemma slug_no_char (a : ascii) (s : string) :
  PyStr.isalnum a || Ascii.eqb a "_" = false ->
  PyStr.contains_char a (slug_of s) = false.
Proof. intros Ha. unfold slug_of. now apply filter_chars_drops. Qed.

Lemma slug_lower (s : string) :
  PyStr.lower (PyStr.filter_chars (fun c => PyStr.isalnum c || Ascii.eqb c "_")
                 (PyStr.replace " " "_" (PyStr.lower s)))
  = PyStr.filter_chars (fun c => PyStr.isalnum c || Ascii.eqb c "_")
      (PyStr.replace " " "_" (PyStr.lower s)).
Proof.
  induction s as [| c r IH]; [reflexivity |].
  cbn [PyStr.lower PyStr.replace PyStr.filter_chars].
  destruct (Ascii.eqb (PyStr.lower_char c) " ") eqn:Hsp.
  - change (PyStr.isalnum "_" || Ascii.eqb "_" "_") with true. cbv iota.
    cbn [PyStr.lower]. now rewrite IH.
  - destruct (PyStr.isalnum (PyStr.lower_char c) || Ascii.eqb (PyStr.lower_char c) "_");
      [| exact IH].
    cbn [PyStr.lower]. now rewrite IH, lower_char_idem.
Qed.

Lemma slug_file_path (s : string) :
  path_join THEMES_DIR (slug_of s ++ ".json") = THEMES_DIR ++ "/" ++ slug_of s ++ ".json".
Proof. apply themes_path. now apply slug_no_char. Qed.

(** X12. The identifier a theme is saved under is stable: deriving
    the identifier of an identifier gives it back. It holds no path
    separator, no dot and no space, so the file written by [save_theme] is
    [themes/<identifier>.json], directly in the themes directory. *)
Theorem slug_of_idempotent (s : string) :
  slug_of (slug_of s) = slug_of s /\
  PyStr.contains_char "/" (slug_of s) = false /\
  PyStr.contains_char "." (slug_of s) = false /\
  PyStr.contains_char " " (slug_of s) = false /\
  path_join THEMES_DIR (slug_of s ++ ".json") = THEMES_DIR ++ "/" ++ slug_of s ++ ".json".
Proof.
  assert (Hslash : PyStr.contains_char "/" (slug_of s) = false)
    by now apply slug_no_char.
  assert (Hspace : PyStr.contains_char " " (slug_of s) = false)
    by now apply slug_no_char.
  repeat apply conj; try assumption.
  - unfold slug_of at 1. unfold slug_of at 1 2. rewrite slug_lower.
    fold (slug_of s). rewrite (replace_absent _ _ _ Hspace).
    unfold slug_of. apply slug_chars_safe.
  - now apply slug_no_char.
  - apply slug_file_path.
Qed.

(** ** Saving from the editor *)

Lemma save_theme_run `{Json} (g : Gui) (new_name : string) (overwrite : bool) :
  let slug := slug_of new_name in
  let filepath := path_join THEMES_DIR (slug ++ ".json") in
  let saved := <["name" := JStr new_name]> (current_theme_data (gui_app g)) in
  let fs' := set_files (<[filepath := json_dump saved]> (files (gui_fs g))) (gui_fs g) in
  new_name <> "" -> slug <> "" ->
  path_exists (gui_fs g) filepath = false \/ overwrite = true ->
  wr_fault (gui_fs g) !! filepath = None ->
  filepath ∉ dirs (gui_fs g) ->
  THEMES_DIR ∈ dirs (gui_fs g) ->
  outcome (save_theme (Some new_name) overwrite g) = inr tt /\
  final (save_theme (Some new_name) overwrite g)
  = {| gui_fs := fs';
       gui_app := {| theme_var := slug; current_theme_data := saved;
                     theme_combo_values := listed_themes fs' |} |}.
Proof.
  intros slug filepath saved fs' Hname Hslug Hgo Hw Hd Hthemes.
  apply String.eqb_neq in Hname. apply String.eqb_neq in Hslug.
  unfold save_theme. py_unfold. rewrite Hname. fold slug. rewrite Hslug.
  fold filepath. py_red.
  assert (Hrest : overwrite = true \/ path_exists (gui_fs g) filepath = false)
    by tauto.
  destruct (path_exists (gui_fs g) filepath) eqn:Hex;
    [destruct Hrest as [-> | Habs]; [| discriminate Habs] |]; py_red;
    cbn [gui_fs gui_app]; rewrite Hw, (bool_decide_eq_false_2 _ Hd); py_red;
    cbn [gui_fs gui_app current_theme_data]; fold saved;
    match goal with |- context [get_available_themes ?X] =>
      rewrite (get_available_themes_listing X) by exact Hthemes
    end; py_red;
    cbn [outcome final fst snd gui_fs gui_app current_theme_data theme_var
         theme_combo_values];
    unfold fs', set_files; cbn [files dirs rd_fault wr_fault mk_fault broken_links];
    rewrite !insert_insert_eq; split; reflexivity.
Qed.

Lemma path_exists_written (fs : Fs) (p q c : string) :
  path_exists (set_files (<[p := c]> (files fs)) fs) q = true <->
  q = p \/ path_exists fs q = true.
Proof.
  unfold path_exists. cbn [files dirs set_files].
  rewrite !orb_true_iff, !bool_decide_eq_true.
  destruct (decide (p = q)) as [-> | Hne].
  - rewrite lookup_insert_eq. split; [tauto | intros _; left; eauto].
  - rewrite lookup_insert_ne by exact Hne. split; [tauto |].
    intros [-> | Hq]; [contradiction | exact Hq].
Qed.

Lemma app_inv_head_string (p s t : string) : p ++ s = p ++ t -> s = t.
Proof.
  induction p as [| c r IH]; [trivial |]. rewrite !append_cons. intros [= Heq]. auto.
Qed.

Lemma app_inv_tail_string (s t p : string) : s ++ p = t ++ p -> s = t.
Proof.
  intros Heq.
  assert (Hl : String.length s = String.length t).
  { apply (f_equal String.length) in Heq. rewrite !string_length_app in Heq. lia. }
  revert t Heq Hl. induction s as [| c r IH]; intros [| d u] Heq Hl;
    try discriminate Hl; [reflexivity |].
  rewrite !append_cons in Heq. injection Heq as -> Heq. f_equal. apply IH; [exact Heq |].
  cbn in Hl. lia.
Qed.

Lemma listed_after_write (fs : Fs) (slug c n : string) :
  PyStr.contains_char "/" slug = false ->
  n ∈ listed_themes
        (set_files (<[THEMES_DIR ++ "/" ++ slug ++ ".json" := c]> (files fs)) fs)
  <-> n = slug \/ n ∈ listed_themes fs.
Proof.
  intros Hslug. rewrite !listed_themes_spec, !entries_spec, path_exists_written.
  cbn [broken_links set_files]. split.
  - intros ([[Heq | Hp] | Hl] & Hn & Hc); [left | right; tauto | right; tauto].
    apply (app_inv_head_string (THEMES_DIR ++ "/")) in Heq.
    now apply (app_inv_tail_string n slug ".json").
  - intros [-> | (Hp & Hn & Hc)]; [| tauto].
    repeat split; [left; now left | destruct slug; discriminate |].
    rewrite contains_char_app, Hslug. reflexivity.
Qed.

(** X13. A save that goes ahead on a writable file in an existing
    themes directory selects the saved theme: the theme field holds the
    identifier, the list of the combo box is the directory listing after
    the write, that is the identifier together with the themes listed
    before, and no other file or directory changes. *)
Theorem save_theme_selects_saved `{Json} (g : Gui) (new_name : string) (overwrite : bool) :
  let slug := slug_of new_name in
  let filepath := path_join THEMES_DIR (slug ++ ".json") in
  let run := save_theme (Some new_name) overwrite g in
  new_name <> "" -> slug <> "" ->
  path_exists (gui_fs g) filepath = false \/ overwrite = true ->
  wr_fault (gui_fs g) !! filepath = None ->
  filepath ∉ dirs (gui_fs g) ->
  THEMES_DIR ∈ dirs (gui_fs g) ->
  theme_var (gui_app (final run)) = slug /\
  theme_combo_values (gui_app (final run)) = listed_themes (gui_fs (final run)) /\
  (forall n, n ∈ theme_combo_values (gui_app (final run)) <->
             n = slug \/ n ∈ listed_themes (gui_fs g)) /\
  dirs (gui_fs (final run)) = dirs (gui_fs g) /\
  (forall p, p <> filepath ->
     files (gui_fs (final run)) !! p = files (gui_fs g) !! p).
Proof.
  intros slug filepath run Hname Hslug Hgo Hw Hd Hthemes.
  destruct (save_theme_run g new_name overwrite Hname Hslug Hgo Hw Hd Hthemes)
    as (_ & Hfinal).
  fold slug filepath run in Hfinal. rewrite Hfinal.
  cbn [gui_fs gui_app theme_var theme_combo_values].
  pose proof (slug_file_path new_name) as Hpath. fold slug filepath in Hpath.
  repeat apply conj; try reflexivity.
  - intros n. rewrite Hpath. apply listed_after_write. now apply slug_no_char.
  - intros p Hp. cbn [files set_files]. now rewrite lookup_insert_ne by congruence.
Qed.

(** Saving [My Cool Theme!!] in the sample directory. *)
Lemma save_theme_selects_saved_witness :
  let run := save_theme (Some "My Cool Theme!!") true Sample.gui_state in
  theme_var (gui_app (final run)) = "my_cool_theme" /\
  theme_combo_values (gui_app (final run)) = ["my_cool_theme"; "noir"; "ocean"].
Proof.
  intros run.
  assert (Hfile : "themes/my_cool_theme.json" ∉ dirs Sample.fs).
  { intros Hin. apply (bool_decide_eq_true_2 _) in Hin.
    vm_compute in Hin. discriminate Hin. }
  assert (Hd : THEMES_DIR ∈ dirs Sample.fs).
  { apply (bool_decide_eq_true_1 (THEMES_DIR ∈ dirs Sample.fs)). vm_compute. reflexivity. }
  destruct (save_theme_selects_saved Sample.gui_state "My Cool Theme!!" true
              ltac:(discriminate) ltac:(discriminate) (or_intror eq_refl)
              eq_refl Hfile Hd) as (Hvar & Hcombo & _).
  split; [exact Hvar |]. fold run in Hcombo. rewrite Hcombo. vm_compute. reflexivity.
Defined.

(** X14. When the theme file cannot be opened for writing, the
    save ends with the error dialog carrying the reason and no success
    dialog; the file system, the selected theme and the list stay as they
    were, but the theme being edited already carries the entered name. *)
Theorem save_theme_write_denied `{Json} (g : Gui) (new_name : string)
    (overwrite : bool) (e : exn) :
  let slug := slug_of new_name in
  let filepath := path_join THEMES_DIR (slug ++ ".json") in
  let run := save_theme (Some new_name) overwrite g in
  new_name <> "" -> slug <> "" ->
  path_exists (gui_fs g) filepath = false \/ overwrite = true ->
  wr_fault (gui_fs g) !! filepath = Some e ->
  outcome run = inr tt /\
  gui_fs (final run) = gui_fs g /\
  theme_var (gui_app (final run)) = theme_var (gui_app g) /\
  theme_combo_values (gui_app (final run)) = theme_combo_values (gui_app g) /\
  current_theme_data (gui_app (final run))
  = <["name" := JStr new_name]> (current_theme_data (gui_app g)) /\
  last (trace run)
  = Some (Dialog (ShowError "Error" ("Could not save theme: " ++ exn_str e))) /\
  (forall title text, Dialog (ShowInfo title text) ∉ trace run).
Proof.
  intros slug filepath run Hname Hslug Hgo Hw. subst run.
  apply String.eqb_neq in Hname. apply String.eqb_neq in Hslug.
  unfold save_theme. py_unfold. rewrite Hname. fold slug. rewrite Hslug.
  fold filepath. py_red.
  assert (Hrest : overwrite = true \/ path_exists (gui_fs g) filepath = false)
    by tauto.
  destruct g as [fs app]. cbn [gui_fs gui_app] in *.
  destruct (path_exists fs filepath) eqn:Hex;
    [destruct Hrest as [-> | Habs]; [| discriminate Habs] |]; py_red;
    cbn [gui_fs gui_app]; rewrite Hw; py_red;
    cbn [outcome final trace fst snd gui_fs gui_app current_theme_data theme_var
         theme_combo_values];
    repeat apply conj; try reflexivity;
    intros title text Hin; cbn [List.app] in Hin;
    rewrite !elem_of_cons, elem_of_nil in Hin; intuition discriminate.
Qed.

(** Overwriting [noir] when its file is write-protected. *)
Lemma save_theme_write_denied_witness :
  let run := save_theme (Some "Noir") true Demo.protected_gui in
  outcome run = inr tt /\
  gui_fs (final run) = gui_fs Demo.protected_gui /\
  theme_var (gui_app (final run)) = "noir" /\
  current_theme_data (gui_app (final run)) !! "name" = Some (JStr "Noir") /\
  last (trace run)
  = Some (Dialog (ShowError "Error" "Could not save theme: Permission denied")).
Proof.
  intros run.
  destruct (save_theme_write_denied Demo.protected_gui "Noir" true
              (Exn "PermissionError" "Permission denied")
              ltac:(discriminate) ltac:(discriminate) (or_intror eq_refl) eq_refl)
    as (Hout & Hfs & Hvar & _ & Hdata & Hlast & _).
  fold run in Hout, Hfs, Hvar, Hdata, Hlast.
  repeat apply conj; try assumption. rewrite Hdata. reflexivity.
Defined.

(** X15. [save_theme] never raises, whatever is entered and
    whatever the file system does, and the only file it can change is
    [themes/<identifier>.json] of the entered name. *)
Theorem save_theme_confined `{Json} (g : Gui) (entered : option string)
    (overwrite : bool) :
  let run := save_theme entered overwrite g in
  outcome run = inr tt /\
  (forall p,
     (forall new_name, entered = Some new_name ->
        p <> THEMES_DIR ++ "/" ++ slug_of new_name ++ ".json") ->
     files (gui_fs (final run)) !! p = files (gui_fs g) !! p) /\
  (forall new_name, entered = Some new_name ->
     PyStr.contains_char "/" (slug_of new_name) = false).
Proof.
  intros run. subst run.
  split; [| split].
  3:{ intros new_name _. now apply slug_no_char. }
  - destruct g as [fs app]. destruct entered as [new_name |]; [| reflexivity].
    unfold save_theme. py_unfold.
    destruct (String.eqb new_name ""); [reflexivity |].
    destruct (String.eqb (slug_of new_name) ""); [reflexivity |]. py_red.
    cbn [gui_fs gui_app].
    destruct (path_exists fs _); py_red; [destruct overwrite; py_red; [| reflexivity] |];
      cbn [gui_fs gui_app];
      (destruct (wr_fault fs !! _); [reflexivity |]);
      (destruct (bool_decide (_ ∈ dirs fs)); [reflexivity |]); py_red;
      cbn [gui_fs gui_app current_theme_data];
      match goal with |- context [get_available_themes ?X] =>
        destruct (get_available_themes X) as [[[e | l] fs'] t]
      end; reflexivity.
  - intros p Hp. destruct g as [fs app]. destruct entered as [new_name |]; [| reflexivity].
    specialize (Hp new_name eq_refl).
    pose proof (slug_file_path new_name) as Hpath.
    unfold save_theme. py_unfold.
    destruct (String.eqb new_name ""); [reflexivity |].
    destruct (String.eqb (slug_of new_name) ""); [reflexivity |]. py_red.
    rewrite Hpath. cbn [gui_fs gui_app].
    destruct (path_exists fs _); py_red; [destruct overwrite; py_red; [| reflexivity] |];
      cbn [gui_fs gui_app];
      (destruct (wr_fault fs !! _); [reflexivity |]);
      (destruct (bool_decide (_ ∈ dirs fs)); [reflexivity |]); py_red;
      cbn [gui_fs gui_app current_theme_data];
      match goal with |- context [get_available_themes ?X] =>
        pose proof (get_available_themes_files X) as [Hf _];
        destruct (get_available_themes X) as [[[e | l] fs'] t]
      end;
      cbn [final fst snd] in Hf;
      cbn [final fst snd gui_fs gui_app]; rewrite ?Hf; cbn [files set_files];
      rewrite !lookup_insert_ne by congruence; reflexivity.
Qed.

(** ** Changing the theme in the editor *)

Lemma load_theme_frame `{Json} (fs : Fs) (theme_name : string) :
  final (load_theme theme_name fs) = fs.
Proof.
  unfold load_theme. py_unfold.
  destruct (path_exists fs _); py_red; [| reflexivity].
  destruct (rd_fault fs !! _); [reflexivity |].
  destruct (files fs !! _); py_red; [| reflexivity].
  destruct (json_load _) as [e | [theme | repr]]; py_red; try reflexivity.
  destruct (theme !! "description"); reflexivity.
Qed.

Lemma on_theme_change_run `{Json} (g : Gui) :
  on_theme_change g
  = match outcome (load_theme (theme_var (gui_app g)) (gui_fs g)) with
    | inl e => (inl e, g, trace (load_theme (theme_var (gui_app g)) (gui_fs g)))
    | inr loaded =>
        (inr tt,
         {| gui_fs := gui_fs g;
            gui_app := {| theme_var := theme_var (gui_app g);
                          current_theme_data := loaded;
                          theme_combo_values := theme_combo_values (gui_app g) |} |},
         trace (load_theme (theme_var (gui_app g)) (gui_fs g)))
    end.
Proof.
  unfold on_theme_change.
  cbv [mbind mret Py_bind Py_ret py_bind py_ret get put zoom with_fs get_app put_app].
  pose proof (load_theme_frame (gui_fs g) (theme_var (gui_app g))) as Hf.
  destruct (load_theme (theme_var (gui_app g)) (gui_fs g)) as [[[e | loaded] fs1] t].
  - cbn [final outcome trace fst snd List.app] in Hf |- *. subst fs1. now destruct g.
  - cbn [final outcome trace fst snd] in Hf |- *. subst fs1.
    cbn [gui_fs gui_app List.app]. now rewrite app_nil_r.
Qed.

(** X16. Selecting a theme in the editor prints what [load_theme]
    prints and changes neither the file system, nor the selected name, nor
    the list. When [load_theme] raises, the error reaches the caller and
    the theme being edited stays; when it returns, the editor holds the
    returned theme, which is the built-in one for a name with no file. *)
Theorem on_theme_change_keeps_state `{Json} (g : Gui) :
  let run := on_theme_change g in
  let loading := load_theme (theme_var (gui_app g)) (gui_fs g) in
  gui_fs (final run) = gui_fs g /\
  theme_var (gui_app (final run)) = theme_var (gui_app g) /\
  theme_combo_values (gui_app (final run)) = theme_combo_values (gui_app g) /\
  trace run = trace loading /\
  (forall e, outcome loading = inl e -> outcome run = inl e /\ final run = g) /\
  (forall loaded, outcome loading = inr loaded ->
     outcome run = inr tt /\ current_theme_data (gui_app (final run)) = loaded) /\
  (path_exists (gui_fs g) (path_join THEMES_DIR (theme_var (gui_app g) ++ ".json")) = false ->
     outcome run = inr tt /\ current_theme_data (gui_app (final run)) = default_theme).
Proof.
  intros run loading. subst run. rewrite on_theme_change_run. fold loading.
  assert (Hmiss :
    path_exists (gui_fs g) (path_join THEMES_DIR (theme_var (gui_app g) ++ ".json")) = false ->
    outcome loading = inr default_theme).
  { intros Hm. subst loading. unfold load_theme. py_unfold. now rewrite Hm. }
  destruct (outcome loading) as [e | loaded] eqn:Hout;
    cbn [final outcome trace fst snd gui_fs gui_app theme_var theme_combo_values
         current_theme_data];
    repeat apply conj; try reflexivity.
  - intros e' [= <-]. split; reflexivity.
  - intros loaded [=].
  - intros Hm. specialize (Hmiss Hm). discriminate Hmiss.
  - intros e [=].
  - intros loaded' [= <-]. split; reflexivity.
  - intros Hm. specialize (Hmiss Hm). injection Hmiss as ->. split; reflexivity.
Qed.

(** X17. Saving and selecting again is a round trip: after a save
    that went through, selecting the theme the save left selected loads
    the saved theme back, entered name included, and changes nothing else,
    provided the stored text parses back to what was dumped. *)
Theorem saved_theme_reloads `{Json} (g : Gui) (new_name : string) (overwrite : bool) :
  let slug := slug_of new_name in
  let filepath := path_join THEMES_DIR (slug ++ ".json") in
  let saved := <["name" := JStr new_name]> (current_theme_data (gui_app g)) in
  let after_save := final (save_theme (Some new_name) overwrite g) in
  new_name <> "" -> slug <> "" ->
  path_exists (gui_fs g) filepath = false \/ overwrite = true ->
  wr_fault (gui_fs g) !! filepath = None ->
  rd_fault (gui_fs g) !! filepath = None ->
  filepath ∉ dirs (gui_fs g) ->
  THEMES_DIR ∈ dirs (gui_fs g) ->
  json_load (json_dump saved) = inr (JObject saved) ->
  outcome (on_theme_change after_save) = inr tt /\
  final (on_theme_change after_save) = after_save /\
  current_theme_data (gui_app (final (on_theme_change after_save))) = saved.
Proof.
  intros slug filepath saved after_save Hname Hslug Hgo Hw Hr Hd Hthemes Hjson.
  destruct (save_theme_run g new_name overwrite Hname Hslug Hgo Hw Hd Hthemes)
    as (_ & Hfinal).
  fold slug filepath saved after_save in Hfinal.
  assert (Hload : outcome (load_theme (theme_var (gui_app after_save))
                             (gui_fs after_save)) = inr saved).
  { rewrite Hfinal. cbn [gui_fs gui_app theme_var].
    apply (load_theme_reads _ slug (json_dump saved) saved).
    - cbn [files set_files]. apply lookup_insert_eq.
    - exact Hr.
    - exact Hjson. }
  rewrite on_theme_change_run, Hload. cbn [outcome final fst snd gui_app current_theme_data].
  repeat apply conj; try reflexivity.
  rewrite Hfinal. reflexivity.
Qed.

(** Saving [My Cool Theme!!] and selecting it again. *)
Lemma saved_theme_reloads_witness :
  let after_save := final (save_theme (Some "My Cool Theme!!") true Sample.gui_state) in
  outcome (on_theme_change after_save) = inr tt /\
  final (on_theme_change after_save) = after_save /\
  current_theme_data (gui_app (final (on_theme_change after_save)))
  = <["name" := JStr "My Cool Theme!!"]> (current_theme_data Sample.app).
Proof.
  assert (Hfile : "themes/my_cool_theme.json" ∉ dirs Sample.fs).
  { intros Hin. apply (bool_decide_eq_true_2 _) in Hin.
    vm_compute in Hin. discriminate Hin. }
  assert (Hd : THEMES_DIR ∈ dirs Sample.fs).
  { apply (bool_decide_eq_true_1 (THEMES_DIR ∈ dirs Sample.fs)). vm_compute. reflexivity. }
  apply (saved_theme_reloads Sample.gui_state "My Cool Theme!!" true
           ltac:(discriminate) ltac:(discriminate) (or_intror eq_refl)
           eq_refl eq_refl Hfile Hd).
  reflexivity.
Defined.

(** ** The color rows *)

Lemma color_keys_spec (theme : Theme) (k : string) :
  k ∈ color_keys theme <-> is_color_entry theme k = true.
Proof.
  unfold color_keys. rewrite (sorted_perm _), list_elem_of_In, filter_In, <- list_elem_of_In.
  rewrite elem_of_elements, elem_of_dom. split; [tauto |].
  intros Hk. split; [| exact Hk]. unfold is_color_entry in Hk.
  apply andb_true_iff in Hk. destruct Hk as [_ Hk].
  destruct (theme !! k); [eauto | discriminate].
Qed.

(** X18. The editor shows a color row for exactly the keys that
    start with one of the six prefixes and hold a string starting with
    ['#']; the rows are in ascending order with no key twice; every role
    the renderer reads gets a row when its value is such a string, and the
    name and the description never do. *)
Theorem color_keys_rows (theme : Theme) :
  (forall k, k ∈ color_keys theme <->
     exists v, theme !! k = Some (JStr v) /\ PyStr.startswith "#" v = true /\
               exists p, p ∈ color_prefixes /\ PyStr.startswith p k = true) /\
  StronglySorted String.le (color_keys theme) /\
  NoDup (color_keys theme) /\
  (forall k v, k ∈ required_roles -> theme !! k = Some (JStr v) ->
     PyStr.startswith "#" v = true -> k ∈ color_keys theme) /\
  ("name" ∉ color_keys theme) /\ ("description" ∉ color_keys theme).
Proof.
  assert (Hspec : forall k, k ∈ color_keys theme <->
     exists v, theme !! k = Some (JStr v) /\ PyStr.startswith "#" v = true /\
               exists p, p ∈ color_prefixes /\ PyStr.startswith p k = true).
  { intros k. rewrite color_keys_spec. unfold is_color_entry.
    rewrite andb_true_iff, existsb_exists. split.
    - intros ((p & Hp & Hk) & Hv).
      destruct (theme !! k) as [[v | r t] |]; try discriminate Hv.
      exists v. repeat split; [exact Hv |]. exists p. split; [| exact Hk].
      now apply list_elem_of_In.
    - intros (v & -> & Hv & p & Hp & Hk). split; [| exact Hv].
      exists p. split; [now apply list_elem_of_In | exact Hk]. }
  repeat apply conj.
  - exact Hspec.
  - apply sorted_ordered.
  - unfold color_keys. rewrite (sorted_perm _).
    apply NoDup_ListNoDup, List.NoDup_filter, NoDup_ListNoDup, NoDup_elements.
  - intros k v Hk Hv Hsharp. apply Hspec. exists v. repeat split; try assumption.
    unfold required_roles in Hk. rewrite !elem_of_cons, elem_of_nil in Hk.
    unfold color_prefixes.
    repeat (destruct Hk as [-> | Hk];
            [first [exists "bg"; split; [rewrite !elem_of_cons; tauto | reflexivity]
                   | exists "text"; split; [rewrite !elem_of_cons; tauto | reflexivity]
                   | exists "water"; split; [rewrite !elem_of_cons; tauto | reflexivity]
                   | exists "parks"; split; [rewrite !elem_of_cons; tauto | reflexivity]
                   | exists "road"; split; [rewrite !elem_of_cons; tauto | reflexivity]
                   | exists "gradient"; split; [rewrite !elem_of_cons; tauto | reflexivity]] |]).
    destruct Hk.
  - intros Hin. apply color_keys_spec in Hin. unfold is_color_entry in Hin.
    cbn in Hin. discriminate Hin.
  - intros Hin. apply color_keys_spec in Hin. unfold is_color_entry in Hin.
    cbn in Hin. discriminate Hin.
Qed.

(** X19. Picking a color for a key that has a row stores the chosen
    hex string under that key and changes no other entry, nor the selected
    theme; the rows shown afterwards are for the same keys. *)
Theorem pick_color_keeps_rows (key c : string) (app : App) :
  key ∈ color_keys (current_theme_data app) ->
  PyStr.startswith "#" c = true ->
  color_keys (current_theme_data (pick_color key (Some c) app))
  = color_keys (current_theme_data app) /\
  current_theme_data (pick_color key (Some c) app) !! key = Some (JStr c) /\
  (forall k, k <> key ->
     current_theme_data (pick_color key (Some c) app) !! k
     = current_theme_data app !! k) /\
  theme_var (pick_color key (Some c) app) = theme_var app.
Proof.
  intros Hkey Hc.
  assert (Hne : String.eqb c "" = false) by (destruct c; [discriminate Hc | reflexivity]).
  unfold pick_color. rewrite Hne. cbn [current_theme_data theme_var].
  repeat apply conj.
  - apply color_keys_spec in Hkey.
    assert (Hdom : key ∈ dom (current_theme_data app)).
    { apply elem_of_dom. unfold is_color_entry in Hkey.
      apply andb_true_iff in Hkey. destruct Hkey as [_ Hk].
      destruct (current_theme_data app !! key); [eauto | discriminate]. }
    unfold color_keys. f_equal.
    rewrite dom_insert_L.
    rewrite (subseteq_union_1_L {[key]} (dom (current_theme_data app)))
      by now apply singleton_subseteq_l.
    apply filter_ext_in. intros k _. unfold is_color_entry.
    destruct (decide (k = key)) as [-> | Hk].
    + rewrite lookup_insert_eq. unfold is_color_entry in Hkey.
      apply andb_true_iff in Hkey. destruct Hkey as [Hp Hv].
      rewrite Hp, Hc.
      destruct (current_theme_data app !! key) as [[v | r t] |]; try discriminate Hv.
      now rewrite Hv.
    + now rewrite lookup_insert_ne by congruence.
  - apply lookup_insert_eq.
  - intros k Hk. now rewrite lookup_insert_ne by congruence.
  - reflexivity.
Qed.

(** A new background color for the custom theme. *)
Lemma pick_color_keeps_rows_witness :
  color_keys (current_theme_data (pick_color "bg" (Some "#202020") Demo.editor))
  = color_keys Demo.custom_theme /\
  current_theme_data (pick_color "bg" (Some "#202020") Demo.editor) !! "bg"
  = Some (JStr "#202020").
Proof.
  assert (Hkey : "bg" ∈ color_keys (current_theme_data Demo.editor)).
  { apply mem_elem_of. vm_compute. reflexivity. }
  destruct (pick_color_keeps_rows "bg" "#202020" Demo.editor Hkey eq_refl)
    as (Hrows & Hval & _).
  split; assumption.
Defined.

(** ** Output file names *)

Lemma generate_output_filename_run (timestamp city theme_name : string) (fs : Fs) :
  let filename := PyStr.replace " " "_" (PyStr.lower city) ++ "_" ++ theme_name
                  ++ "_" ++ timestamp ++ ".png" in
  generate_output_filename timestamp city theme_name fs
  = if path_exists fs POSTERS_DIR then (inr (path_join POSTERS_DIR filename), fs, [])
    else match mk_fault fs !! POSTERS_DIR with
         | Some e => (inl e, fs, [])
         | None => (inr (path_join POSTERS_DIR filename),
                    set_dirs ({[POSTERS_DIR]} ∪ dirs fs) fs, [])
         end.
Proof.
  intros filename. unfold generate_output_filename. py_unfold.
  destruct (path_exists fs POSTERS_DIR) eqn:Hdir; py_red; [reflexivity |].
  destruct (mk_fault fs !! POSTERS_DIR); [reflexivity |]. now rewrite Hdir.
Qed.

Lemma prefix_nil (s : string) : String.prefix "" s = true.
Proof. now destruct s. Qed.

Lemma posters_path_inj (slug rest rest' : string) :
  path_join POSTERS_DIR (slug ++ "_" ++ rest) = path_join POSTERS_DIR (slug ++ "_" ++ rest') ->
  rest = rest'.
Proof.
  assert (Hs : PyStr.startswith "/" (slug ++ "_" ++ rest)
               = PyStr.startswith "/" (slug ++ "_" ++ rest')).
  { unfold PyStr.startswith. destruct slug as [| c r].
    - reflexivity.
    - rewrite !append_cons. cbn [String.prefix]. destruct (ascii_dec "/" c); [| reflexivity].
      now rewrite !prefix_nil. }
  unfold path_join. rewrite <- Hs.
  destruct (PyStr.startswith "/" (slug ++ "_" ++ rest)).
  - intros Heq. apply (app_inv_head_string slug) in Heq.
    now apply (app_inv_head_string "_") in Heq.
  - change (String.eqb POSTERS_DIR "" || PyStr.endswith "/" POSTERS_DIR) with false.
    cbv iota. intros Heq. apply (app_inv_head_string POSTERS_DIR) in Heq.
    apply (app_inv_head_string "/") in Heq. apply (app_inv_head_string slug) in Heq.
    now apply (app_inv_head_string "_") in Heq.
Qed.

Lemma slug_char_slash (c : ascii) :
  Ascii.eqb (if Ascii.eqb (PyStr.lower_char c) " " then "_"%char else PyStr.lower_char c) "/"
  = Ascii.eqb c "/".
Proof.
  destruct c as [b0 b1 b2 b3 b4 b5 b6 b7];
    destruct b0, b1, b2, b3, b4, b5, b6, b7; vm_compute; reflexivity.
Qed.

Lemma startswith_slash (s : string) :
  PyStr.startswith "/" s
  = match s with String c _ => Ascii.eqb c "/" | EmptyString => false end.
Proof.
  unfold PyStr.startswith. destruct s as [| c r]; [reflexivity |].
  cbn [String.prefix]. rewrite prefix_nil.
  destruct (ascii_dec "/" c) as [<- | Hne]; [reflexivity |].
  symmetry. apply Ascii.eqb_neq. congruence.
Qed.

Lemma posters_path (city rest : string) :
  PyStr.startswith "/" city = false ->
  path_join POSTERS_DIR (PyStr.replace " " "_" (PyStr.lower city) ++ "_" ++ rest)
  = POSTERS_DIR ++ "/" ++ PyStr.replace " " "_" (PyStr.lower city) ++ "_" ++ rest.
Proof.
  intros Hc. unfold path_join.
  assert (Hs : PyStr.startswith "/"
                 (PyStr.replace " " "_" (PyStr.lower city) ++ "_" ++ rest) = false).
  { rewrite startswith_slash in Hc |- *. destruct city as [| c r]; [reflexivity |].
    cbn [PyStr.lower PyStr.replace]. rewrite append_cons. now rewrite slug_char_slash. }
  now rewrite Hs.
Qed.

(** X20. [generate_output_filename] prints nothing and changes no
    file; it creates the posters directory when it is missing, so that the
    directory exists whenever a name is returned, and raises only when
    that creation fails. The name returned is under [posters/] unless the
    city starts with a slash, in which case it is the bare file name, an
    absolute path. *)
Theorem output_filename_effects (timestamp city theme_name : string) (fs : Fs) :
  let run := generate_output_filename timestamp city theme_name fs in
  let filename := PyStr.replace " " "_" (PyStr.lower city) ++ "_" ++ theme_name
                  ++ "_" ++ timestamp ++ ".png" in
  (forall p, outcome run = inr p ->
     path_exists (final run) POSTERS_DIR = true /\
     files (final run) = files fs /\
     (PyStr.startswith "/" city = false -> p = POSTERS_DIR ++ "/" ++ filename) /\
     (PyStr.startswith "/" city = true -> p = filename)) /\
  (forall e, outcome run = inl e ->
     path_exists fs POSTERS_DIR = false /\ mk_fault fs !! POSTERS_DIR = Some e /\
     run = (inl e, fs, [])) /\
  (path_exists fs POSTERS_DIR = true -> final run = fs) /\
  trace run = [].
Proof.
  intros run filename. subst run. rewrite generate_output_filename_run. fold filename.
  assert (Habs : PyStr.startswith "/" city = true -> path_join POSTERS_DIR filename = filename).
  { intros Hc. unfold path_join.
    assert (Hs : PyStr.startswith "/" filename = true).
    { subst filename. rewrite startswith_slash in Hc |- *.
      destruct city as [| c r]; [discriminate Hc |].
      cbn [PyStr.lower PyStr.replace]. rewrite append_cons. now rewrite slug_char_slash. }
    now rewrite Hs. }
  destruct (path_exists fs POSTERS_DIR) eqn:Hdir;
    [| destruct (mk_fault fs !! POSTERS_DIR) as [e |] eqn:Hmk];
    cbn [outcome final trace fst snd]; repeat apply conj;
    try reflexivity; try discriminate; try (intros; discriminate).
  - intros p [= <-]. repeat split; [exact Hdir | | exact Habs].
    intros Hc. now apply posters_path.
  - intros e' [= <-]. now repeat split.
  - intros p [= <-]. repeat split; [| | exact Habs].
    + unfold path_exists. cbn [dirs set_dirs].
      rewrite (bool_decide_eq_true_2 (POSTERS_DIR ∈ {[POSTERS_DIR]} ∪ dirs fs))
        by (apply elem_of_union; left; now apply elem_of_singleton).
      apply orb_true_r.
    + intros Hc. now apply posters_path.
Qed.

(** X21. For one city and theme, two calls of
    [generate_output_filename] return the same path exactly when their
    timestamps are equal: posters made in different seconds do not
    overwrite each other, posters made in the same second do. *)
Theorem output_filename_distinct (timestamp timestamp' city theme_name : string)
    (fs fs' : Fs) (p p' : string) :
  outcome (generate_output_filename timestamp city theme_name fs) = inr p ->
  outcome (generate_output_filename timestamp' city theme_name fs') = inr p' ->
  p = p' <-> timestamp = timestamp'.
Proof.
  rewrite !generate_output_filename_run.
  assert (Hp : forall ts (s : Fs) q,
            outcome (if path_exists s POSTERS_DIR
                     then (inr (path_join POSTERS_DIR
                                  (PyStr.replace " " "_" (PyStr.lower city) ++ "_"
                                   ++ theme_name ++ "_" ++ ts ++ ".png")), s, [])
                     else match mk_fault s !! POSTERS_DIR with
                          | Some e => (inl e, s, [])
                          | None =>
                              (inr (path_join POSTERS_DIR
                                      (PyStr.replace " " "_" (PyStr.lower city) ++ "_"
                                       ++ theme_name ++ "_" ++ ts ++ ".png")),
                               set_dirs ({[POSTERS_DIR]} ∪ dirs s) s, [])
                          end : (exn + string) * Fs * list Event) = inr q ->
            q = path_join POSTERS_DIR
                  (PyStr.replace " " "_" (PyStr.lower city) ++ "_"
                   ++ theme_name ++ "_" ++ ts ++ ".png")).
  { intros ts s q. destruct (path_exists s POSTERS_DIR);
      [| destruct (mk_fault s !! POSTERS_DIR)]; cbn; congruence. }
  intros H1 H2. apply Hp in H1, H2. subst p p'. split.
  - intros Heq. apply posters_path_inj in Heq.
    apply (app_inv_head_string theme_name) in Heq.
    apply (app_inv_head_string "_") in Heq.
    now apply (app_inv_tail_string timestamp timestamp' ".png").
  - now intros ->.
Qed.

(** Two posters of New York in the noir theme, one second apart. *)
Lemma output_filename_distinct_witness :
  "posters/new_york_noir_20260101_120000.png" = "posters/new_york_noir_20260101_120001.png"
  <-> "20260101_120000" = "20260101_120001".
Proof.
  apply (output_filename_distinct "20260101_120000" "20260101_120001" "New York" "noir"
           Sample.fs Sample.empty_fs); reflexivity.
Defined.

(** ** The two fades of a poster *)

Lemma fraction_mirror (i : nat) :
  (i < 256)%nat ->
  (1 - inject_Z (Z.of_nat i) / 255 == inject_Z (Z.of_nat (255 - i)) / 255)%Q.
Proof.
  intros Hi. rewrite Nat2Z.inj_sub by lia. unfold Z.sub. rewrite inject_Z_plus, inject_Z_opp.
  change (inject_Z (Z.of_nat 255)) with 255%Q. field.
Qed.

(** X22. The two fades [create_poster] draws with one color mirror
    each other: same image, same red, green and blue in every row, and
    opposite ends, the bottom fade opaque in its first row and clear in
    its last, the top fade the other way round. Row [i] of the bottom
    fade is more opaque than row [j] of the top fade when [i + j < 255]
    and less opaque when [i + j > 255]. On an axis that runs upwards the
    bottom band ends below the start of the top band. (The rows with
    [i + j = 255] are left out: there the exact values are equal, and the
    float arrays agree only up to rounding.) *)
Theorem gradient_fades_mirrored `{Colors}
    (ax : Axes) (color : JVal) (zorder : Z) (r g b : Q) :
  to_rgb color = inr (r, g, b) ->
  exists bottom top,
    create_gradient_fade ax color "bottom" zorder = inr bottom /\
    create_gradient_fade ax color "top" zorder = inr top /\
    ov_image bottom = ov_image top /\
    map fst (ov_colors bottom) = map fst (ov_colors top) /\
    (exists a, ov_alpha bottom !! 0%nat = Some a /\ (a == 1)%Q) /\
    ov_alpha bottom !! 255%nat = Some 0%Q /\
    (exists a, ov_alpha top !! 0%nat = Some a /\ (a == 0)%Q) /\
    ov_alpha top !! 255%nat = Some 1%Q /\
    (forall i j a a',
       ov_alpha bottom !! i = Some a -> ov_alpha top !! j = Some a' ->
       ((i + j < 255)%nat -> (a' < a)%Q) /\
       ((255 < i + j)%nat -> (a < a')%Q)) /\
    (fst (ylim ax) <= snd (ylim ax) -> ov_y_top bottom <= ov_y_bottom top)%Q.
Proof.
  intros Hrgb. unfold create_gradient_fade. rewrite Hrgb.
  change (String.eqb "bottom" "bottom") with true.
  change (String.eqb "top" "bottom") with false. cbv iota beta zeta.
  eexists _, _. split; [reflexivity |]. split; [reflexivity |].
  unfold ov_alpha, ov_y_top, ov_y_bottom. cbn [ov_image ov_colors ov_extent fst snd].
  rewrite !alpha_of_rows.
  repeat apply conj.
  - reflexivity.
  - rewrite !map_map. cbn [fst].
    assert (Hconst : forall l l' : list Q, length l = length l' ->
              map (fun _ : Q => (r, g, b)) l = map (fun _ : Q => (r, g, b)) l').
    { induction l as [| x l IH]; intros [| y l'] Hl; try discriminate Hl;
        [reflexivity |]. cbn. f_equal. apply IH. now injection Hl. }
    apply Hconst. now rewrite !linspace_length.
  - destruct (ramp_down 0 ltac:(lia)) as (x & Hx & Hxe).
    exists x. split; [exact Hx |]. rewrite Hxe. reflexivity.
  - apply (linspace_last 1 0 254).
  - destruct (ramp_up 0 ltac:(lia)) as (x & Hx & Hxe).
    exists x. split; [exact Hx |]. rewrite Hxe. reflexivity.
  - apply (linspace_last 0 1 254).
  - intros i j a a' Hi Hj.
    assert (Hi256 : (i < 256)%nat).
    { apply lookup_lt_Some in Hi. now rewrite linspace_length in Hi. }
    assert (Hj256 : (j < 256)%nat).
    { apply lookup_lt_Some in Hj. now rewrite linspace_length in Hj. }
    destruct (ramp_down i Hi256) as (x & Hx & Hxe).
    destruct (ramp_up j Hj256) as (y & Hy & Hye).
    rewrite Hx in Hi. rewrite Hy in Hj. injection Hi as <-. injection Hj as <-.
    rewrite Hxe, Hye, (fraction_mirror i Hi256). split.
    + intros Hlt. apply fraction_lt. lia.
    + intros Hgt. apply fraction_lt. lia.
  - intros Hle. generalize dependent (fst (ylim ax)). generalize (snd (ylim ax)).
    intros hi lo Hle. lra.
Qed.

(** White fades on an axis that runs from 100 to 116. *)
Lemma gradient_fades_mirrored_witness :
  exists bottom top,
    create_gradient_fade Sample.axes (JStr "#FFFFFF") "bottom" 10 = inr bottom /\
    create_gradient_fade Sample.axes (JStr "#FFFFFF") "top" 10 = inr top /\
    ov_alpha bottom !! 255%nat = Some 0%Q /\
    ov_alpha top !! 255%nat = Some 1%Q /\
    (ov_y_top bottom <= ov_y_bottom top)%Q.
Proof.
  assert (Hwhite : to_rgb (JStr "#FFFFFF") = inr (1%Q, 1%Q, 1%Q)).
  { vm_compute. reflexivity. }
  destruct (gradient_fades_mirrored Sample.axes (JStr "#FFFFFF") 10 1 1 1 Hwhite)
    as (bottom & top & Hb & Ht & _ & _ & _ & Hb255 & _ & Ht255 & _ & Hbands).
  exists bottom, top. repeat apply conj; try assumption.
  apply Hbands. vm_compute. discriminate.
Defined.
